(** * Slizzy: track resolution and matching pipeline

    A shallow embedding of [src/slizzy/slider/slider.py] (the slider source
    adapter) and of [src/slizzy/main.py] (argument validation, the
    orchestrator [slizzy] and the batch driver [main]), followed by the
    properties of the pipeline that the specification states.

    Python effects are made explicit: a computation is a function from a
    state (the outside world plus the chronological trace of what the program
    has printed, logged and requested) to an outcome and a new state.  Modules
    of the package that are imported but not part of these two files
    ([track], [tolerance], [config], [util], [google], [beatport], [mp3co],
    [zippy], [downloader]) enter the development as parameters, gathered in
    the records [Slider.Env] and [Main.Lib.t]. *)

From Stdlib Require Import ZArith String Ascii List Bool Lia.
From Stdlib Require QArith_base.
From stdpp Require Import base gmap sets list strings pretty.
Import ListNotations.

Set Warnings "-register-all".

Local Open Scope string_scope.
Local Open Scope Z_scope.
Local Open Scope list_scope.

(** ** Python values and control flow *)

Module Py.

(** What [json.loads] returns.  A [JDict] lists the items of the decoded
    [dict] in insertion order, each key once.  Floats are carried around but
    never computed with; only their value is kept. *)
Inductive json : Type :=
| JNull
| JBool (b : bool)
| JInt (z : Z)
| JFloat (q : QArith_base.Q)
| JStr (s : string)
| JList (l : list json)
| JDict (d : list (string * json)).

(** The subclasses of [Exception] that the program raises or lets through.
    [SystemExit] is not one of them; it is the [Exit] outcome below. *)
Inductive exn : Type :=
| HTTPError (msg : string)
| RequestException (msg : string)
| JSONDecodeError (msg : string)
| KeyError (key : string)
| TypeError
| AttributeError
| IndexError
| StopIteration
| RuntimeError (msg : string)
| ConfigError (msg : string)
| OtherError (msg : string).

(** [str(e)] for an exception [e]; the texts of the built-in errors are
    shortened. *)
Definition exn_str (e : exn) : string :=
  match e with
  | HTTPError m | RequestException m | JSONDecodeError m
  | RuntimeError m | ConfigError m | OtherError m => m
  | KeyError k => "'" +:+ k +:+ "'"
  | TypeError => "type error"
  | AttributeError => "attribute error"
  | IndexError => "list index out of range"
  | StopIteration => ""
  end.

(** How a call ends: it returns, raises an [Exception], leaves the
    interpreter through [sys.exit], or never comes back (a request that is
    never answered; no request of the program carries a timeout). *)
Inductive outcome (A : Type) : Type :=
| Ret (a : A)
| Raise (e : exn)
| Exit (code : Z)
| Hang.
Arguments Ret {A} a.
Arguments Raise {A} e.
Arguments Exit {A} code.
Arguments Hang {A}.

Inductive level : Type := lvl_debug | lvl_info | lvl_warn | lvl_error.

(** Final result handed to the orchestrator: [types.Obj(name, link)]. *)
Record Download : Type := mkDownload { name : json; link : string }.

(** Everything the program does that can be observed from outside, in the
    order in which it happens. *)
Inductive event : Type :=
| Log (logger : string) (msg : string) (lvl : option level)
| Br (logger : string)
| Finish (logger : string) (msg : option string)
| Progress (logger : string) (msg : string)
| Step
| ProgressFinish (msg : string) (lvl : option level)
| Request (url : string) (params : list (string * string))
| Print (msg : string)
| PrintErr (msg : string)
| Invoke (callee : string) (arg : string)   (* a call into another module *)
| Deliver (downloads : list Download)
| CfgSet (section key value : string).

Record state (W : Type) : Type := mkState { world : W; trace : list event }.
Arguments mkState {W} world trace.
Arguments world {W} s.
Arguments trace {W} s.

Definition M (W A : Type) : Type := state W -> outcome A * state W.

Definition ret {W A} (a : A) : M W A := fun s => (Ret a, s).

Definition bind {W A B} (c : M W A) (k : A -> M W B) : M W B :=
  fun s =>
    match c s with
    | (Ret a, s') => k a s'
    | (Raise e, s') => (Raise e, s')
    | (Exit n, s') => (Exit n, s')
    | (Hang, s') => (Hang, s')
    end.

Definition raise {W A} (e : exn) : M W A := fun s => (Raise e, s).

Definition sys_exit {W A} (code : Z) : M W A := fun s => (Exit code, s).

Definition emit {W} (ev : event) : M W unit :=
  fun s => (Ret tt, mkState (world s) (trace s ++ [ev])).

(** [try: c  except cls as e: h e]; the class is given by its instances. *)
Definition try_except {W A} (cls : exn -> bool) (c : M W A) (h : exn -> M W A)
  : M W A :=
  fun s =>
    match c s with
    | (Raise e, s') => if cls e then h e s' else (Raise e, s')
    | r => r
    end.

Definition is_Exception (e : exn) : bool := true.

Definition is_StopIteration (e : exn) : bool :=
  match e with StopIteration => true | _ => false end.

Definition is_ConfigError (e : exn) : bool :=
  match e with ConfigError _ => true | _ => false end.

(** [try: c  finally: f]; [f] does not return a value of its own. *)
Definition try_finally {W A} (c : M W A) (f : M W unit) : M W A :=
  fun s =>
    match c s with
    | (Hang, s') => (Hang, s')
    | (r, s') =>
        match f s' with
        | (Ret _, s'') => (r, s'')
        | (Raise e, s'') => (Raise e, s'')
        | (Exit n, s'') => (Exit n, s'')
        | (Hang, s'') => (Hang, s'')
        end
    end.

(** A call into code that lives outside the two files: it reads and changes
    the world, and writes nothing into the trace. *)
Definition Ext (W A : Type) : Type := W -> outcome A * W.

Definition call {W A} (f : Ext W A) : M W A :=
  fun s => let r := f (world s) in (fst r, mkState (snd r) (trace s)).

(** A pure step that may raise. *)
Definition lift {W A} (r : exn + A) : M W A :=
  fun s => match r with inl e => (Raise e, s) | inr a => (Ret a, s) end.

#[global] Instance M_ret {W} : MRet (M W) := fun A a => ret a.
#[global] Instance M_bind {W} : MBind (M W) := fun A B k c => bind c k.

(** [isinstance(v, int)]; [bool] is a subclass of [int]. *)
Definition isinstance_int (v : json) : bool :=
  match v with JInt _ | JBool _ => true | _ => false end.

Fixpoint assoc (k : string) (d : list (string * json)) : option json :=
  match d with
  | [] => None
  | (k', v) :: r => if String.eqb k k' then Some v else assoc k r
  end.

(** [v[k]] for a string [k]. *)
Definition getitem (v : json) (k : string) : exn + json :=
  match v with
  | JDict d => match assoc k d with Some x => inr x | None => inl (KeyError k) end
  | _ => inl TypeError
  end.

(** [v.items()]. *)
Definition items (v : json) : exn + list (string * json) :=
  match v with JDict d => inr d | _ => inl AttributeError end.

(** [iter(v)], run to the end. *)
Definition iterate (v : json) : exn + list json :=
  match v with
  | JList l => inr l
  | JDict d => inr (map (fun kv => JStr (fst kv)) d)
  | JStr s => inr (map (fun c => JStr (String c "")) (list_ascii_of_string s))
  | _ => inl TypeError
  end.

(** [a + v] for a [str] [a]. *)
Definition str_add (a : string) (v : json) : exn + string :=
  match v with JStr s => inr (a +:+ s) | _ => inl TypeError end.

Fixpoint mapM {W A B} (f : A -> M W B) (l : list A) : M W (list B) :=
  match l with
  | [] => mret []
  | x :: r => y ← f x; ys ← mapM f r; mret (y :: ys)
  end.

(** A list traversed with a step that may raise: the first exception wins. *)
Fixpoint collect {A B} (f : A -> exn + B) (l : list A) : exn + list B :=
  match l with
  | [] => inr []
  | x :: r =>
      match f x with
      | inl e => inl e
      | inr y => match collect f r with
                 | inl e => inl e
                 | inr ys => inr (y :: ys)
                 end
      end
  end.

(** A line break inside a message. *)
Definition nl : string := String (ascii_of_nat 10) "".

End Py.

Import Py.


(** ** Strings: the operations of [str] and [re] that the adapter uses

    A character is a code point below 256. *)

Module Str.

(** [re.sub(r"</?b>", "", s)]: one left-to-right pass that drops every
    occurrence of the opening and of the closing tag. *)
Fixpoint sub_b_tags (s : string) : string :=
  match s with
  | String "<" (String "b" (String ">" r)) => sub_b_tags r
  | String "<" (String "/" (String "b" (String ">" r))) => sub_b_tags r
  | String c r => String c (sub_b_tags r)
  | EmptyString => EmptyString
  end.

Fixpoint split_br_from (cur s : string) : list string :=
  match s with
  | String "<" (String "b" (String "r" (String ">" r))) =>
      cur :: split_br_from "" r
  | String c r => split_br_from (cur +:+ String c "") r
  | EmptyString => [cur]
  end.

(** [s.split("<br>")]; the result is never empty. *)
Definition split_br (s : string) : list string := split_br_from "" s.

(** [c.isspace()]. *)
Definition isspace (c : ascii) : bool :=
  let n := nat_of_ascii c in
  ((9 <=? n) && (n <=? 13) || (28 <=? n) && (n <=? 32)
   || (n =? 133) || (n =? 160))%nat.

Definition flush (cur : string) (rest : list string) : list string :=
  match cur with EmptyString => rest | _ => cur :: rest end.

Fixpoint split_from (cur s : string) : list string :=
  match s with
  | String c r =>
      if isspace c then flush cur (split_from "" r)
      else split_from (cur +:+ String c "") r
  | EmptyString => flush cur []
  end.

(** [s.split()]: the maximal runs of non-space characters. *)
Definition split (s : string) : list string := split_from "" s.

(** [sep.join(l)]. *)
Fixpoint join (sep : string) (l : list string) : string :=
  match l with
  | [] => ""
  | [x] => x
  | x :: r => x +:+ sep +:+ join sep r
  end.

End Str.

Module Track.
(** The attributes of [slizzy.track.Track] that the two files read;
    [duration] is the only one ever assigned, by the orchestrator. *)
Record t : Type := mk { title : string; query_string : string; duration : option Z }.
End Track.

(** ** [slizzy/slider/slider.py] *)

Module Slider.

(** One entry of the upstream script: what the next [requests.get] does. *)
Inductive reply : Type :=
| Answer (status_code : Z) (body : string)
| Failure (e : exn).

Record page : Type := mkPage { status_code : Z; body : string }.

Module Raw.
Record t : Type := mk
  { id : json; ext_id : json; key : string; duration : json; title : json }.
End Raw.

Module Info.
Record t : Type := mk { bitrate : Z; size : QArith_base.Q * string }.
End Info.

Module Entry.
Record t : Type := mk
  { id : json; title : json; duration : json;
    bitrate : option Z; size : option (QArith_base.Q * string);
    download : string }.
End Entry.

Definition World : Type := list reply.

Definition base_url : string := "http://slider.kz".

(** [requests.get(url, params)]: the next entry of the script decides; at
    the end of the script the request is never answered. *)
Definition requests_get (url : string) (params : list (string * string))
  : M World page :=
  fun s =>
    let tr := trace s ++ [Request url params] in
    match world s with
    | [] => (Hang, mkState [] tr)
    | Answer c b :: rest => (Ret (mkPage c b), mkState rest tr)
    | Failure e :: rest => (Raise e, mkState rest tr)
    end.

(** What [slider.py] imports: the standard decoder and the helpers of the
    package that live outside this file. *)
Record Env : Type := mkEnv
  { json_loads : string -> exn + json;
    (** [repr] of a decoded float, list or dict *)
    repr : json -> string;
    (** [str] of a float *)
    float_str : QArith_base.Q -> string;
    (** [util.string.read_int], [util.string.read_float] *)
    read_int : string -> exn + Z;
    read_float : string -> exn + QArith_base.Q;
    (** [util.time.to_str] *)
    time_to_str : json -> exn + string;
    (** [util.color.result] *)
    color_result : nat -> string;
    (** [x in tolerance.duration(d)] and [x in tolerance.bitrate] *)
    tolerance_duration : option Z -> json -> bool;
    tolerance_bitrate : option Z -> bool;
    (** [util.string.fuzz_match] and [config.slider.fuzz_threshold] *)
    fuzz_match : json -> string -> QArith_base.Q;
    fuzz_threshold : QArith_base.Q }.

(** [a > b] on scores. *)
Definition score_gt (a b : QArith_base.Q) : bool := negb (QArith_base.Qle_bool a b).

Section Adapter.

Context (E : Env).

(** [str(v)], as [str.format] applies it to a [{}] field. *)
Definition py_str (v : json) : string :=
  match v with
  | JStr s => s
  | JInt z => pretty z
  | JBool true => "True"
  | JBool false => "False"
  | JNull => "None"
  | _ => repr E v
  end.

Definition str_opt_int (b : option Z) : string :=
  match b with Some z => pretty z | None => "None" end.

Definition plural (n : nat) (one many : string) : string :=
  if (n =? 1)%nat then one else many.

(** The [while isinstance(raw_entries, int)] loop of [fetch].  Every round
    uses up one entry of the script, so [fuel] rounds are never exceeded when
    [fuel] is above the length of the script. *)
Fixpoint fetch_loop (fuel : nat) (track : Track.t) : M World json :=
  match fuel with
  | O => fun s => (Hang, s)
  | S fuel' =>
      emit Step ;;
      page ← requests_get (base_url +:+ "/vk_auth.php")
                          [("q", Track.query_string track)];
      if negb (status_code page =? 200)
      then raise (HTTPError ("http code " +:+ pretty (status_code page) +:+ "."))
      else
        raw_entries ← lift (json_loads E (body page));
        if isinstance_int raw_entries then fetch_loop fuel' track
        else mret raw_entries
  end.

Definition raw_entry (key : string) (entry : json) : M World Raw.t :=
  id ← lift (getitem entry "id");
  ext ← lift (getitem entry "ext");
  duration ← lift (getitem entry "duration");
  title ← lift (getitem entry "tit_art");
  mret (Raw.mk id ext key duration title).

Definition raw_group (item : string * json) : M World (list Raw.t) :=
  entries ← lift (iterate (snd item));
  mapM (raw_entry (fst item)) entries.

(** The loop of [fetch], started with enough fuel for the whole script. *)
Definition retrieve (track : Track.t) : M World json :=
  fun s => fetch_loop (S (length (world s))) track s.

(** What [fetch] does with the decoded response once the loop is left. *)
Definition entries_of (raw_entries : json) : M World (list Raw.t) :=
  audios ← lift (getitem raw_entries "audios");
  groups ← lift (items audios);
  nested ← mapM raw_group groups;
  let entries := concat nested in
  emit (ProgressFinish
          ("Retrieved " +:+ color_result E (length entries) +:+ " slider " +:+
           plural (length entries) "entry." "entries.") None) ;;
  mret entries.

Definition fetch (track : Track.t) : M World (list Raw.t) :=
  emit (Progress "slider" "Retrieving slider entries...") ;;
  raw_entries ← retrieve track;
  entries_of raw_entries.

Definition nth_item {A} (l : list A) (i : nat) : exn + A :=
  match nth_error l i with Some x => inr x | None => inl IndexError end.

Definition last_item {A} (l : list A) : exn + A :=
  match rev l with x :: _ => inr x | [] => inl IndexError end.

(** The body of the [try] of [fetch_info]. *)
Definition parse_info (lines : list string) : exn + Info.t :=
  match nth_item lines 0 with
  | inl e => inl e
  | inr l0 =>
    match read_int E l0 with
    | inl e => inl e
    | inr bitrate =>
      match nth_item lines 1 with
      | inl e => inl e
      | inr l1 =>
        match read_float E l1 with
        | inl e => inl e
        | inr sz =>
          match last_item (Str.split l1) with
          | inl e => inl e
          | inr unit => inr (Info.mk bitrate (sz, unit))
          end
        end
      end
    end
  end.

(** The [while not data.bitrate] loop of [fetch_info]; [None] is the
    [return None] of its two failure branches. *)
Fixpoint fetch_info_loop (fuel : nat) (info_url : string)
  : M World (option Info.t) :=
  match fuel with
  | O => fun s => (Hang, s)
  | S fuel' =>
      emit Step ;;
      page ← requests_get info_url [];
      if negb (status_code page =? 200)
      then
        emit (ProgressFinish
                ("Failed to fetch metadata: http code " +:+
                 pretty (status_code page) +:+ ".") (Some lvl_warn)) ;;
        mret None
      else
        let lines := Str.split_br (Str.sub_b_tags (body page)) in
        match parse_info lines with
        | inl _ =>
            emit (ProgressFinish "Failed to fetch metadata: parse error."
                                 (Some lvl_warn)) ;;
            mret None
        | inr data =>
            if Info.bitrate data =? 0 then fetch_info_loop fuel' info_url
            else mret (Some data)
        end
  end.

(** The loop of [fetch_info], started with enough fuel for the whole
    script. *)
Definition metadata (info_url : string) : M World (option Info.t) :=
  fun s => fetch_info_loop (S (length (world s))) info_url s.

(** The last report of [fetch_info] and its [return data]. *)
Definition fetched (id duration : json) (data : Info.t)
  : M World (option Info.t) :=
  d ← lift (time_to_str E duration);
  emit (ProgressFinish
          ("Fetched metadata (" +:+ py_str id +:+ "): duration = " +:+ d +:+
           "; bitrate = " +:+ pretty (Info.bitrate data) +:+
           "; size = " +:+ float_str E (fst (Info.size data)) +:+ " " +:+
           snd (Info.size data) +:+ ";") None) ;;
  mret (Some data).

Definition fetch_info (id duration : json) (info_url : string)
  : M World (option Info.t) :=
  head ← lift (str_add "Fetching metadata (" id);
  emit (Progress "slider" (head +:+ ")...")) ;;
  found ← metadata info_url;
  match found with
  | None => mret None
  | Some data => fetched id duration data
  end.

Definition norm (e : Raw.t) : M World Entry.t :=
  info ← fetch_info (Raw.id e) (Raw.duration e)
           (base_url +:+ "/info/" +:+ py_str (Raw.duration e) +:+ "/" +:+
            py_str (Raw.id e) +:+ "/" +:+ py_str (Raw.ext_id e) +:+ "/" +:+
            Raw.key e);
  mret (Entry.mk (Raw.id e) (Raw.title e) (Raw.duration e)
          (Info.bitrate <$> info) (Info.size <$> info)
          (base_url +:+ "/download/" +:+ Raw.key e +:+ "/" +:+
           py_str (Raw.id e) +:+ "/" +:+ py_str (Raw.ext_id e) +:+ ".mp3")).

Definition normalize (entries : list Raw.t) : M World (list Entry.t) :=
  mapM norm entries.

(** The condition of the generator at the head of [select]: duration
    tolerance, known size, bitrate tolerance, with the short circuit of
    [and]. *)
Definition within_tolerance (track : Track.t) (entry : Entry.t) : bool :=
  tolerance_duration E (Track.duration track) (Entry.duration entry)
  && (match Entry.size entry with Some _ => true | None => false end
      && tolerance_bitrate E (Entry.bitrate entry)).

(** The [lambda] handed to [iterator.partition]; the call into
    [string.fuzz_match] is recorded. *)
Definition name_matches (track : Track.t) (entry : Entry.t) : M World bool :=
  emit (Invoke "string.fuzz_match" (py_str (Entry.title entry))) ;;
  mret (score_gt (fuzz_match E (Entry.title entry) (Track.title track))
                 (fuzz_threshold E)).

(** Modelled from the spec: [util.iterator.partition] is not among the
    sources.  It applies the predicate to each element once, in order, and
    returns the accepted elements and, collected separately, the rejected
    ones, both in their original order. *)
Fixpoint partition {A} (pred : A -> M World bool) (l : list A)
  : M World (list A * list A) :=
  match l with
  | [] => mret ([], [])
  | x :: r =>
      b ← pred x;
      rest ← partition pred r;
      mret (if b : bool then (x :: fst rest, snd rest)
            else (fst rest, x :: snd rest))
  end.

Definition entry_block (entry : Entry.t) : M World string :=
  t ← lift (str_add "Track: " (Entry.title entry));
  d ← lift (time_to_str E (Entry.duration entry));
  sz ← lift (match Entry.size entry with
             | Some (q, u) => inr (float_str E q +:+ " " +:+ u)
             | None => inl TypeError
             end);
  mret (Str.join nl
          [ t;
            "  duration : " +:+ d;
            "  size     : " +:+ sz;
            "  bitrate  : " +:+ str_opt_int (Entry.bitrate entry) +:+ " kbps";
            "  link     : " +:+ Entry.download entry ]).

Definition select (entries : list Entry.t) (track : Track.t)
  : M World (list Entry.t) :=
  let candidates := List.filter (within_tolerance track) entries in
  parts ← partition (name_matches track) candidates;
  let entries := fst parts in
  let filtered := snd parts in
  (match filtered with
   | [] => mret tt
   | _ =>
       names ← mapM (fun e => lift (str_add "  " (Entry.title e))) filtered;
       emit (Log "slider"
               ("Filtered " +:+ pretty (length filtered) +:+ " " +:+
                plural (length filtered) "entry" "entries" +:+ " by name:" +:+
                nl +:+ Str.join nl names) None)
   end) ;;
  blocks ← mapM entry_block entries;
  emit (Log "slider"
          ("Selected " +:+ color_result E (length entries) +:+ " " +:+
           plural (length entries) "entry" "entries" +:+
           (match entries with [] => "." | _ => ":" +:+ nl end) +:+
           Str.join nl blocks) None) ;;
  mret entries.

Definition project (entry : Entry.t) : Download :=
  mkDownload (Entry.title entry) (Entry.download entry).

(** The body of the [try] of [slider]. *)
Definition pipeline (track : Track.t) : M World (list Entry.t) :=
  raw ← fetch track;
  candidates ← normalize raw;
  select candidates track.

Definition slider (track : Track.t) : M World (list Download) :=
  emit (Log "slider"
          ("Running slider for track '" +:+ Track.query_string track +:+ "'.")
          (Some lvl_info)) ;;
  try_finally
    (try_except is_Exception
       (selected ← pipeline track; mret (map project selected))
       (fun e =>
          emit (Log "slider" ("Slider failed: " +:+ exn_str e)
                    (Some lvl_error)) ;;
          mret []))
    (emit (Finish "slider" None)).

(** *** Vocabulary of the statements about the adapter *)

(** A reply that sends the loop of [fetch] round again: status 200 and a
    body that decodes to an [int], the error code that the comment in the
    source speaks of. *)
Definition is_placeholder (r : reply) : bool :=
  match r with
  | Answer c b =>
      (c =? 200)
      && match json_loads E b with inr v => isinstance_int v | inl _ => false end
  | Failure _ => false
  end.

(** A reply that sends the loop of [fetch_info] round again: status 200 and
    a body that reads as a bitrate of 0. *)
Definition is_pending (r : reply) : bool :=
  match r with
  | Answer c b =>
      (c =? 200)
      && match parse_info (Str.split_br (Str.sub_b_tags b)) with
         | inr data => Info.bitrate data =? 0
         | inl _ => false
         end
  | Failure _ => false
  end.

(** What [n] rounds of a loop leave in the trace: a progress step and a
    request each. *)
Fixpoint attempts (url : string) (params : list (string * string)) (n : nat)
  : list event :=
  match n with
  | O => []
  | S n' => Step :: Request url params :: attempts url params n'
  end.



(** The state in which the [try] of [slider] starts. *)
Definition entered (track : Track.t) (s : state World) : state World :=
  mkState (world s)
    (trace s ++ [Log "slider"
                   ("Running slider for track '" +:+ Track.query_string track +:+ "'.")
                   (Some lvl_info)]).

Definition closed (s : state World) : state World :=
  mkState (world s) (trace s ++ [Finish "slider" None]).

Definition failed (e : exn) (s : state World) : state World :=
  mkState (world s)
    (trace s ++ [Log "slider" ("Slider failed: " +:+ exn_str e) (Some lvl_error);
                 Finish "slider" None]).

(** The entries that [select] lets through by name, and the others. *)
Definition name_ok (track : Track.t) (entry : Entry.t) : bool :=
  score_gt (fuzz_match E (Entry.title entry) (Track.title track))
           (fuzz_threshold E).

Definition accepted (track : Track.t) (entry : Entry.t) : bool :=
  within_tolerance track entry && name_ok track entry.

Definition rejected_by_name (track : Track.t) (entry : Entry.t) : bool :=
  within_tolerance track entry && negb (name_ok track entry).

Definition compared (entry : Entry.t) : event :=
  Invoke "string.fuzz_match" (py_str (Entry.title entry)).

(** The text of the report on the entries filtered by name. *)
Definition filtered_msg (titles : list string) : string :=
  "Filtered " +:+ pretty (length titles) +:+ " " +:+
  plural (length titles) "entry" "entries" +:+ " by name:" +:+ nl +:+
  Str.join nl (map (fun t => "  " +:+ t) titles).

(** The text that [entry_block] computes. *)
Definition block_text (entry : Entry.t) : exn + string :=
  match str_add "Track: " (Entry.title entry) with
  | inl e => inl e
  | inr t =>
    match time_to_str E (Entry.duration entry) with
    | inl e => inl e
    | inr d =>
      match Entry.size entry with
      | None => inl TypeError
      | Some (q, u) =>
          inr (Str.join nl
                 [ t;
                   "  duration : " +:+ d;
                   "  size     : " +:+ (float_str E q +:+ " " +:+ u);
                   "  bitrate  : " +:+ str_opt_int (Entry.bitrate entry) +:+ " kbps";
                   "  link     : " +:+ Entry.download entry ])
      end
    end
  end.

Definition selected_msg (entries : list Entry.t) (blocks : list string) : string :=
  "Selected " +:+ color_result E (length entries) +:+ " " +:+
  plural (length entries) "entry" "entries" +:+
  (match entries with [] => "." | _ => ":" +:+ nl end) +:+
  Str.join nl blocks.

(** An entry that [select] can report on: its title is a string and its
    duration has a text. *)
Definition printable (entry : Entry.t) : Prop :=
  (exists t, Entry.title entry = JStr t)
  /\ (exists d, time_to_str E (Entry.duration entry) = inr d).

(** What [select] writes about the entries filtered by name, if it gets
    that far. *)
Definition rejection_report (filtered : list Entry.t) : exn + list event :=
  match filtered with
  | [] => inr []
  | _ =>
      match collect (fun e => str_add "  " (Entry.title e)) filtered with
      | inl e => inl e
      | inr names =>
          inr [Log "slider"
                 ("Filtered " +:+ pretty (length filtered) +:+ " " +:+
                  plural (length filtered) "entry" "entries" +:+ " by name:" +:+
                  nl +:+ Str.join nl names) None]
      end
  end.

(** A candidate built by [norm] either has no metadata at all or has both
    a size and a bitrate other than 0. *)
Definition metadata_complete (entry : Entry.t) : Prop :=
  (Entry.bitrate entry = None /\ Entry.size entry = None)
  \/ (exists b sz, Entry.bitrate entry = Some b /\ b <> 0
                   /\ Entry.size entry = Some sz).

(** *** Vocabulary of the further statements about the adapter *)

(** From one state to a later one the script is used up from the front and
    the trace grows at the end. *)
Definition extends (s s' : state World) : Prop :=
  (exists used, world s = used ++ world s')
  /\ (exists added, trace s' = trace s ++ added).

(** A run that keeps to this, does not leave through [sys.exit], and does
    not come back only when the script is used up. *)
Definition orderly_at {A} (c : M World A) (s : state World) : Prop :=
  extends s (snd (c s))
  /\ (forall n, fst (c s) <> Exit n)
  /\ (fst (c s) = Hang -> world (snd (c s)) = []).

Definition orderly {A} (c : M World A) : Prop := forall s, orderly_at c s.

(** The entry that the comprehension of [fetch] builds from one decoded
    object of the group [key], when the object has the four fields. *)
Definition raw_of (key : string) (entry : json) : option Raw.t :=
  match entry with
  | JDict d =>
      match assoc "id" d, assoc "ext" d, assoc "duration" d, assoc "tit_art" d with
      | Some id, Some ext, Some duration, Some title =>
          Some (Raw.mk id ext key duration title)
      | _, _, _, _ => None
      end
  | _ => None
  end.

(** A group of the decoded response whose value is a list of such objects,
    and the entries in it. *)
Definition group_ok (group : string * json) : Prop :=
  exists l, snd group = JList l
            /\ Forall (fun entry => raw_of (fst group) entry <> None) l.

Definition group_entries (group : string * json) : list Raw.t :=
  match snd group with
  | JList l => omap (raw_of (fst group)) l
  | _ => []
  end.

Definition retrieved_msg (n : nat) : string :=
  "Retrieved " +:+ color_result E n +:+ " slider " +:+
  plural n "entry." "entries.".

(** The candidate that [norm] builds from a raw entry and the outcome of
    the metadata lookup. *)
Definition candidate (e : Raw.t) (info : option Info.t) : Entry.t :=
  Entry.mk (Raw.id e) (Raw.title e) (Raw.duration e)
    (Info.bitrate <$> info) (Info.size <$> info)
    (base_url +:+ "/download/" +:+ Raw.key e +:+ "/" +:+
     py_str (Raw.id e) +:+ "/" +:+ py_str (Raw.ext_id e) +:+ ".mp3").

(** A text without the character that opens a tag. *)
Definition tag_free (s : string) : bool :=
  forallb (fun c => negb (Ascii.eqb c "<")) (list_ascii_of_string s).


Definition search_url : string := base_url +:+ "/vk_auth.php".

Definition search_params (track : Track.t) : list (string * string) :=
  [("q", Track.query_string track)].

End Adapter.

End Slider.

(** ** [slizzy/main.py] *)

Module Main.

(** [module = enum.Enum("modules", "slider mp3co zippy")]. *)
Module module.
Inductive t : Type := slider | mp3co | zippy.
End module.

#[global] Instance module_eq_dec : EqDecision module.t.
Proof. solve_decision. Defined.

#[global] Instance module_countable : Countable module.t.
Proof.
  refine (inj_countable'
            (fun m => match m with
                      | module.slider => 0%nat
                      | module.mp3co => 1%nat
                      | module.zippy => 2%nat
                      end)
            (fun n => match n with
                      | 0%nat => module.slider
                      | 1%nat => module.mp3co
                      | _ => module.zippy
                      end) _).
  intros []; reflexivity.
Defined.

Definition all_modules : gset module.t :=
  {[ module.slider; module.mp3co; module.zippy ]}.

Inductive command : Type := dl | lns | cfg | no_command.

(** The value of [args.duration]: absent, the text given on the command
    line, or the time that [parse_args] puts in its place. *)
Inductive duration_arg : Type :=
| NoDuration
| RawDuration (text : string)
| Seconds (time : Z).

(** The namespace that [argparse] hands back. *)
Module Args.
Record t : Type := mk
  { command : Main.command;
    tracks : list string;
    duration : duration_arg;
    slider : bool; mp3co : bool; zippy : bool;
    google_key : option string;
    beatport_cx : option string;
    zippyshare_cx : option string }.
End Args.

(** What [main.py] imports from the rest of the package, over a world [W]
    that those modules read and change. *)
Module Lib.
Record t (W : Type) : Type := mk
  { (** [Track(text, duration)]; [None] when the constructor raises *)
    new_track : string -> duration_arg -> option Track.t;
    (** [util.time.from_str] *)
    time_from_str : string -> exn + Z;
    (** [util.color.result], [util.color.yellow] *)
    color_result : nat -> string;
    color_yellow : string -> string;
    (** [google(track, domain)], run to the end of what it yields *)
    google : Track.t -> string -> Ext W (list string);
    beatport_domain : string;
    zippy_domain : string;
    beatport_get_metadata : Track.t -> string -> Ext W (option Z);
    slider : Track.t -> Ext W (list Download);
    mp3co : Track.t -> Ext W (list Download);
    zippy_get_download : Track.t -> string -> Ext W (option Download);
    download : list Download -> Ext W unit;
    (** [config.cfg[section][key] = value] and [config.update(config.cfg)] *)
    config_set : string -> string -> string -> Ext W unit;
    config_update : Ext W unit }.
Arguments new_track {W} _ _ _.
Arguments time_from_str {W} _ _.
Arguments color_result {W} _ _.
Arguments color_yellow {W} _ _.
Arguments google {W} _ _ _.
Arguments beatport_domain {W} _.
Arguments zippy_domain {W} _.
Arguments beatport_get_metadata {W} _ _ _.
Arguments slider {W} _ _.
Arguments mp3co {W} _ _.
Arguments zippy_get_download {W} _ _ _.
Arguments download {W} _ _.
Arguments config_set {W} _ _ _ _.
Arguments config_update {W} _.
End Lib.

(** Truth value of a duration held by a track: [None] and [0] are false. *)
Definition has_duration (d : option Z) : bool :=
  match d with Some z => negb (z =? 0) | None => false end.

(** Truth value of an optional string: [None] and [""] are false. *)
Definition nonempty (o : option string) : bool :=
  match o with Some s => negb (String.eqb s "") | None => false end.

Definition is_search (c : command) : bool :=
  match c with dl | lns => true | _ => false end.

(** The flag of a variant on the command line. *)
Definition flag (args : Args.t) (m : module.t) : bool :=
  match m with
  | module.slider => Args.slider args
  | module.mp3co => Args.mp3co args
  | module.zippy => Args.zippy args
  end.

Section Program.

Context {W : Type} (L : Lib.t W).

(** A [StopIteration] that escapes from the body of a generator reaches the
    caller of [next] as a [RuntimeError]. *)
Definition in_generator {A} (c : M W A) : M W A :=
  try_except is_StopIteration c
    (fun _ => raise (RuntimeError "generator raised StopIteration")).

(** [next(duration for page in pages
                   for duration in [beatport.get_metadata(track, page)]
                   if duration)]. *)
Fixpoint first_duration (track : Track.t) (pages : list string) : M W Z :=
  match pages with
  | [] => raise StopIteration
  | page :: rest =>
      emit (Invoke "beatport.get_metadata" page) ;;
      found ← in_generator (call (Lib.beatport_get_metadata L track page));
      match found with
      | Some d =>
          if has_duration (Some d) then mret d else first_duration track rest
      | None => first_duration track rest
      end
  end.

(** The [if not track.duration] block of [slizzy]: the track with its
    duration filled in, or [None] where the function returns early. *)
Definition resolve_duration (track : Track.t) : M W (option Track.t) :=
  if has_duration (Track.duration track) then mret (Some track)
  else
    try_except is_StopIteration
      (emit (Invoke "google" (Lib.beatport_domain L)) ;;
       pages ← call (Lib.google L track (Lib.beatport_domain L));
       d ← first_duration track pages;
       mret (Some (Track.mk (Track.title track) (Track.query_string track)
                            (Some d))))
      (fun _ =>
         emit (Log "slizzy" "Track duration unavailable" (Some lvl_error)) ;;
         mret None).

(** [[dl for page in pages for dl in [zippy.get_download(track, page)] if dl]]. *)
Fixpoint zippy_pages (track : Track.t) (pages : list string)
  : M W (list Download) :=
  match pages with
  | [] => mret []
  | page :: rest =>
      emit (Invoke "zippy.get_download" page) ;;
      found ← call (Lib.zippy_get_download L track page);
      others ← zippy_pages track rest;
      mret (match found with Some d => d :: others | None => others end)
  end.

(** Lines 49 to 74: one result list per variant, empty for a variant that is
    not enabled. *)
Definition from_slider (track : Track.t) (modules : gset module.t)
  : M W (list Download) :=
  if decide (module.slider ∈ modules)
  then emit (Invoke "slider" (Track.query_string track)) ;;
       call (Lib.slider L track)
  else mret [].

Definition from_mp3co (track : Track.t) (modules : gset module.t)
  : M W (list Download) :=
  if decide (module.mp3co ∈ modules)
  then emit (Invoke "mp3co" (Track.query_string track)) ;;
       call (Lib.mp3co L track)
  else mret [].

Definition from_zippy (track : Track.t) (modules : gset module.t)
  : M W (list Download) :=
  if decide (module.zippy ∈ modules)
  then emit (Invoke "google" (Lib.zippy_domain L)) ;;
       pages ← call (Lib.google L track (Lib.zippy_domain L));
       zippy_pages track pages
  else mret [].

Definition gather (track : Track.t) (modules : gset module.t)
  : M W (list Download * list Download * list Download) :=
  slider_downloads ← from_slider track modules;
  mp3co_downloads ← from_mp3co track modules;
  zippy_downloads ← from_zippy track modules;
  mret (slider_downloads, mp3co_downloads, zippy_downloads).

Definition count_msg (n : nat) (source : string) : string :=
  "Selected " +:+ Lib.color_result L n +:+ " " +:+ source +:+ " entries.".

Definition url_line (d : Download) : M W string :=
  head ← lift (match name d with
               | JStr s => inr (s +:+ " | ")
               | _ => inl TypeError
               end);
  mret (head +:+ link d).

(** Lines 77 to 107. *)
Definition report (download_tracks : bool)
    (slider_downloads mp3co_downloads zippy_downloads : list Download)
  : M W unit :=
  emit (Log "slizzy" (count_msg (length slider_downloads) "slider")
            (Some lvl_info)) ;;
  emit (Log "slizzy" (count_msg (length mp3co_downloads) "mp3co")
            (Some lvl_info)) ;;
  emit (Log "slizzy" (count_msg (length zippy_downloads) "zippy")
            (Some lvl_info)) ;;
  let downloads := slider_downloads ++ mp3co_downloads ++ zippy_downloads in
  match downloads with
  | [] => emit (Log "slizzy" "No entries to download." None)
  | _ =>
      (if download_tracks
       then emit (Deliver downloads) ;; call (Lib.download L downloads)
       else
         lines ← mapM url_line downloads;
         emit (Log "slizzy"
                 ("Selected urls:" +:+ nl +:+ "  " +:+
                  Str.join (nl +:+ "  ") lines) None)) ;;
      emit (Br "slizzy") ;;
      emit (Finish "slizzy"
              (Some ("Slizzied " +:+ pretty (length downloads) +:+ " files.")))
  end.

Definition slizzy (track : Track.t) (modules : gset module.t)
    (download_tracks : bool) : M W unit :=
  emit (Log "slizzy" ("Slizzy magic for track '" +:+ Track.title track +:+ "'")
            (Some lvl_info)) ;;
  emit (Log "slizzy" ("Query string: " +:+ Track.query_string track)
            (Some lvl_info)) ;;
  emit (Br "slizzy") ;;
  resolved ← resolve_duration track;
  match resolved with
  | None => mret tt
  | Some track =>
      found ← gather track modules;
      report download_tracks found.1.1 found.1.2 found.2
  end.

(** What [parse_args] does once [argparse] has produced the namespace. *)
Definition parse_args (args : Args.t) : M W Args.t :=
  if is_search (Args.command args)
  then
    match Args.duration args with
    | RawDuration text =>
        if negb (String.eqb text "")
        then
          (if (1 <? length (Args.tracks args))%nat
           then
             emit (PrintErr
                     "Error: with the duration parameter, only one track may be specified.") ;;
             sys_exit 1
           else mret tt) ;;
          match Lib.time_from_str L text with
          | inl e =>
              emit (PrintErr ("Error: " +:+ exn_str e +:+ ".")) ;;
              sys_exit 1
          | inr seconds =>
              mret (Args.mk (Args.command args) (Args.tracks args)
                      (Seconds seconds)
                      (Args.slider args) (Args.mp3co args) (Args.zippy args)
                      (Args.google_key args) (Args.beatport_cx args)
                      (Args.zippyshare_cx args))
          end
        else mret args
    | _ => mret args
    end
  else mret args.

(** The loop of lines 193 to 198, which puts a [Track] in the place of each
    text and leaves at the first text that [Track] refuses. *)
Fixpoint make_tracks (texts : list string) (duration : duration_arg)
  : M W (list Track.t) :=
  match texts with
  | [] => mret []
  | text :: rest =>
      match Lib.new_track L text duration with
      | Some track =>
          others ← make_tracks rest duration;
          mret (track :: others)
      | None =>
          emit (PrintErr ("Error: invalid track format '" +:+ text +:+ "'.")) ;;
          sys_exit 1
      end
  end.

(** Lines 200 to 208. *)
Definition enabled_modules (args : Args.t) : gset module.t :=
  let flagged : gset module.t :=
    list_to_set
      (map fst
         (List.filter snd
            [ (module.slider, Args.slider args);
              (module.mp3co, Args.mp3co args);
              (module.zippy, Args.zippy args) ])) in
  if decide (flagged = ∅) then all_modules else flagged.

Definition separator : string :=
  "----------------------------------------------------------------------".

(** [for track in tracks: print(...); slizzy(track, ...)]. *)
Fixpoint remaining_tracks (tracks : list Track.t) (modules : gset module.t)
    (download_tracks : bool) : M W unit :=
  match tracks with
  | [] => mret tt
  | track :: rest =>
      emit (Print (Lib.color_yellow L separator)) ;;
      slizzy track modules download_tracks ;;
      remaining_tracks rest modules download_tracks
  end.

Definition set_if_given (section key : string) (value : option string)
  : M W unit :=
  if nonempty value
  then match value with
       | Some v => emit (CfgSet section key v) ;; call (Lib.config_set L section key v)
       | None => mret tt
       end
  else mret tt.

Definition config_failed (e : exn) : M W unit :=
  emit (PrintErr ("Error (config): " +:+ exn_str e)) ;;
  sys_exit 2.

Definition main (argv : Args.t) : M W unit :=
  args ← parse_args argv;
  (if is_search (Args.command args)
   then
     tracks ← make_tracks (Args.tracks args) (Args.duration args);
     let modules := enabled_modules args in
     let download_tracks :=
       match Args.command args with dl => true | _ => false end in
     try_except is_ConfigError
       (match tracks with
        | [] => raise StopIteration
        | first :: rest =>
            slizzy first modules download_tracks ;;
            remaining_tracks rest modules download_tracks
        end)
       config_failed
   else mret tt) ;;
  (match Args.command args with
   | cfg =>
       set_if_given "google" "key" (Args.google_key args) ;;
       set_if_given "beatport" "cx" (Args.beatport_cx args) ;;
       set_if_given "zippyshare" "cx" (Args.zippyshare_cx args) ;;
       try_except is_ConfigError (call (Lib.config_update L)) config_failed
   | _ => mret tt
   end).

(** *** Vocabulary of the statements about the orchestrator *)

(** What [slizzy] writes before it looks at the duration. *)
Definition announce (track : Track.t) : list event :=
  [ Log "slizzy" ("Slizzy magic for track '" +:+ Track.title track +:+ "'")
        (Some lvl_info);
    Log "slizzy" ("Query string: " +:+ Track.query_string track) (Some lvl_info);
    Br "slizzy" ].

Definition unavailable : event :=
  Log "slizzy" "Track duration unavailable" (Some lvl_error).

Definition consulted (page : string) : event :=
  Invoke "beatport.get_metadata" page.






Definition bad_format (text : string) : event :=
  PrintErr ("Error: invalid track format '" +:+ text +:+ "'.").


(** An event that shows one of the three variants at work. *)
Definition is_adapter_call (ev : event) : bool :=
  match ev with
  | Invoke callee _ =>
      String.eqb callee "slider" || String.eqb callee "mp3co"
      || String.eqb callee "zippy.get_download"
  | Deliver _ => true
  | _ => false
  end.


(** The announcements of tracks in a trace: one per track that [slizzy] has
    started on. *)
Definition announcements (tr : list event) : list event :=
  List.filter
    (fun ev => match ev with
               | Log _ msg _ => String.prefix "Slizzy magic for track" msg
               | _ => false
               end) tr.

(** *** Vocabulary of the further statements about the orchestrator *)



Definition bad_duration (e : exn) : event :=
  PrintErr ("Error: " +:+ exn_str e +:+ ".").

(** The arguments with the duration replaced. *)
Definition with_duration (args : Args.t) (d : duration_arg) : Args.t :=
  Args.mk (Args.command args) (Args.tracks args) d
    (Args.slider args) (Args.mp3co args) (Args.zippy args)
    (Args.google_key args) (Args.beatport_cx args) (Args.zippyshare_cx args).

Definition asked (page : string) : event := Invoke "zippy.get_download" page.

(** The line that announces a track. *)
Definition magic (track : Track.t) : event :=
  Log "slizzy" ("Slizzy magic for track '" +:+ Track.title track +:+ "'")
      (Some lvl_info).

(** A run that announces no track. *)
Definition quiet {A} (c : M W A) : Prop :=
  forall s, announcements (trace (snd (c s))) = announcements (trace s).

End Program.

End Main.

(** ** A concrete scenario

    Simple stand-ins for the imported helpers, used to run the two files on
    explicit inputs. *)

Module Scenario.

Import Slider.

Definition good_body : string := "{audios}".
Definition busy_body : string := "5".

Definition song : json :=
  JDict [ ("id", JStr "17_42"); ("ext", JStr "abc"); ("duration", JInt 178);
          ("tit_art", JStr "Artist - Title") ].

Definition other_song : json :=
  JDict [ ("id", JStr "17_43"); ("ext", JStr "abd"); ("duration", JInt 180);
          ("tit_art", JStr "Somebody - Else") ].

Definition good_json : json := JDict [ ("audios", JDict [ ("", JList [song; other_song]) ]) ].

(** An entry whose title is a number. *)
Definition odd_body : string := "{odd}".

Definition odd_json : json :=
  JDict [ ("audios",
           JDict [ ("", JList [ JDict [ ("id", JStr "17_50"); ("ext", JStr "abz");
                                        ("duration", JInt 180);
                                        ("tit_art", JInt 7) ] ]) ]) ].

(** A decoder that knows the bodies of the scenario. *)
Definition json_loads (s : string) : exn + json :=
  if String.eqb s good_body then inr good_json
  else if String.eqb s odd_body then inr odd_json
  else if String.eqb s busy_body then inr (JInt 5)
  else inl (JSONDecodeError "Expecting value").

Definition digit (c : ascii) : option Z :=
  let n := nat_of_ascii c in
  if ((48 <=? n) && (n <=? 57))%nat then Some (Z.of_nat n - 48) else None.

Fixpoint digits (acc : Z) (s : string) : Z :=
  match s with
  | String c r => match digit c with Some d => digits (10 * acc + d) r | None => acc end
  | EmptyString => acc
  end.

(** The number that a text starts with. *)
Definition read_int (s : string) : exn + Z :=
  match s with
  | String c _ => match digit c with Some _ => inr (digits 0 s) | None => inl (OtherError "no number") end
  | EmptyString => inl (OtherError "no number")
  end.

Definition read_float (s : string) : exn + QArith_base.Q :=
  match read_int s with
  | inr z => inr (QArith_base.Qmake z 1)
  | inl e => inl e
  end.

Definition time_to_str (v : json) : exn + string :=
  match v with JInt z => inr (pretty z +:+ "s") | _ => inl TypeError end.

Definition tolerance_duration (target : option Z) (v : json) : bool :=
  match target, v with
  | Some t, JInt d => (t - 5 <=? d) && (d <=? t + 5)
  | _, _ => false
  end.

Definition tolerance_bitrate (b : option Z) : bool :=
  match b with Some z => (128 <=? z) && (z <=? 320) | None => false end.

(** Full score for the very title of the track, none otherwise. *)
Definition fuzz_match (candidate : json) (title : string) : QArith_base.Q :=
  match candidate with
  | JStr s => if String.eqb s title then QArith_base.Qmake 1 1 else QArith_base.Qmake 0 1
  | _ => QArith_base.Qmake 0 1
  end.

Definition env : Env :=
  {| Slider.json_loads := json_loads;
     Slider.repr := fun _ => "<repr>";
     Slider.float_str := fun q => pretty (QArith_base.Qnum q) +:+ ".0";
     Slider.read_int := read_int;
     Slider.read_float := read_float;
     Slider.time_to_str := time_to_str;
     Slider.color_result := fun n => pretty n;
     Slider.tolerance_duration := tolerance_duration;
     Slider.tolerance_bitrate := tolerance_bitrate;
     Slider.fuzz_match := fuzz_match;
     Slider.fuzz_threshold := QArith_base.Qmake 6 10 |}.

Definition track : Track.t := Track.mk "Artist - Title" "artist title" (Some 180).

Definition start (script : list reply) : state World := mkState script [].

(** Three placeholder answers, then the entries, then the metadata of the two
    entries: the second one only after a first answer without a bitrate. *)
Definition script : list reply :=
  [ Answer 200 busy_body; Answer 200 busy_body; Answer 200 busy_body;
    Answer 200 good_body;
    Answer 200 "<b>320</b> kbps<br>8 MB";
    Answer 200 "0<br>0 MB";
    Answer 200 "<b>128</b> kbps<br>3 MB" ].

(** The orchestrator's side: a world without state. *)

Import Main.

Definition has_dash (s : string) : bool :=
  existsb (fun c => Ascii.eqb c "-") (list_ascii_of_string s).

(** A text with a dash is a track; its duration is the one given, if any. *)
Definition new_track (text : string) (d : duration_arg) : option Track.t :=
  if has_dash text
  then Some (Track.mk text text
               (match d with Seconds z => Some z | _ => None end))
  else None.

Definition time_from_str (s : string) : exn + Z :=
  match read_int s with
  | inr z => inr z
  | inl _ => inl (OtherError "invalid time format")
  end.

(** The search finds three documents for the known track on the metadata
    site and one on the file host, and a single document without a duration
    for any other track. *)
Definition google (t : Track.t) (domain : string) : Ext unit (list string) :=
  fun w =>
    (Ret (if String.eqb (Track.title t) "Artist - Title"
          then if String.eqb domain "beatport.com"
               then ["first document"; "second document"; "third document"]
               else ["file page"]
          else if String.eqb domain "beatport.com"
               then ["blank document"]
               else []), w).

Definition get_metadata (t : Track.t) (page : string) : Ext unit (option Z) :=
  fun w =>
    (Ret (if String.eqb page "second document" then Some 180
          else if String.eqb page "third document" then Some 200
          else None), w).

Definition d1 : Download := mkDownload (JStr "Artist - Title") "http://slider.kz/download/1.mp3".
Definition d2 : Download := mkDownload (JStr "Artist - Title (Mix)") "http://slider.kz/download/2.mp3".
Definition d3 : Download := mkDownload (JStr "Artist - Title") "http://mp3co.biz/3.mp3".
Definition d4 : Download := mkDownload (JStr "Artist - Title") "http://zippyshare.com/4".

Definition lib : Lib.t unit :=
  {| Lib.new_track := new_track;
     Lib.time_from_str := time_from_str;
     Lib.color_result := fun n => pretty n;
     Lib.color_yellow := fun s => s;
     Lib.google := google;
     Lib.beatport_domain := "beatport.com";
     Lib.zippy_domain := "zippyshare.com";
     Lib.beatport_get_metadata := get_metadata;
     Lib.slider := fun _ w => (Ret [d1; d2], w);
     Lib.mp3co := fun _ w => (Ret [d3], w);
     Lib.zippy_get_download := fun _ _ w => (Ret (Some d4), w);
     Lib.download := fun _ w => (Ret tt, w);
     Lib.config_set := fun _ _ _ w => (Ret tt, w);
     Lib.config_update := fun w => (Ret tt, w) |}.


Definition argv (c : command) (tracks : list string) (d : duration_arg)
    (slider mp3co zippy : bool) : Args.t :=
  Args.mk c tracks d slider mp3co zippy None None None.

Definition boot : state unit := mkState tt [].

Definition known : Track.t := Track.mk "Artist - Title" "Artist - Title" None.
Definition unknown : Track.t := Track.mk "Nobody - Nothing" "Nobody - Nothing" None.

(** Three candidates: a match, one without metadata and too long, and one
    within tolerance under another name; and a fourth one whose bitrate
    reads 0. *)
Definition c1 : Entry.t :=
  Entry.mk (JStr "17_42") (JStr "Artist - Title") (JInt 178) (Some 320)
    (Some (QArith_base.Qmake 8 1, "MB")) "http://slider.kz/download/k/17_42/abc.mp3".
Definition c2 : Entry.t :=
  Entry.mk (JStr "17_43") (JStr "Unrelated") (JInt 240) None None
    "http://slider.kz/download/k/17_43/abd.mp3".
Definition c3 : Entry.t :=
  Entry.mk (JStr "17_44") (JStr "artist title (live)") (JInt 181) (Some 128)
    (Some (QArith_base.Qmake 3 1, "MB")) "http://slider.kz/download/k/17_44/abe.mp3".
Definition c4 : Entry.t :=
  Entry.mk (JStr "17_45") (JStr "Artist - Title") (JInt 180) (Some 0)
    (Some (QArith_base.Qmake 0 1, "MB")) "http://slider.kz/download/k/17_45/abf.mp3".

(** Two raw entries, and a script that has metadata for the first one
    only. *)
Definition r1 : Raw.t :=
  Raw.mk (JStr "17_42") (JStr "abc") "k" (JInt 178) (JStr "Artist - Title").
Definition r2 : Raw.t :=
  Raw.mk (JStr "17_43") (JStr "abd") "k" (JInt 180) (JStr "Artist - Title").

Definition half_script : list reply :=
  [ Answer 200 "<b>320</b> kbps<br>8 MB"; Answer 404 "" ].

(** Three placeholder answers, and the answers about the two entries. *)
Definition busy : list reply :=
  [ Answer 200 busy_body; Answer 200 busy_body; Answer 200 busy_body ].

Definition info_replies : list reply :=
  [ Answer 200 "<b>320</b> kbps<br>8 MB";
    Answer 200 "0<br>0 MB";
    Answer 200 "<b>128</b> kbps<br>3 MB" ].

(** A script whose search is refused after one placeholder. *)
Definition refused_script : list reply :=
  [ Answer 200 busy_body; Answer 503 "" ].

(** A script whose connection breaks during the first metadata request,
    and one whose only entry has a number as title. *)
Definition broken_script : list reply :=
  [ Answer 200 good_body; Failure (RequestException "connection reset") ].

Definition odd_script : list reply :=
  [ Answer 200 odd_body; Answer 200 "<b>320</b> kbps<br>8 MB" ].

(** The runs of the scenario, stage by stage. *)
Definition after_fetch :=
  Eval vm_compute in fetch env track (entered track (start script)).
Definition after_normalize :=
  Eval vm_compute in
    match after_fetch with
    | (Ret raw, s1) => normalize env raw s1
    | _ => (Ret [], start [])
    end.
Definition after_select :=
  Eval vm_compute in
    match after_normalize with
    | (Ret candidates, s2) => select env candidates track s2
    | _ => (Ret [], start [])
    end.
Definition after_refusal :=
  Eval vm_compute in fetch env track (entered track (start refused_script)).
Definition after_half :=
  Eval vm_compute in normalize env [r1; r2] (start half_script).
Definition after_break :=
  Eval vm_compute in
    match fetch env track (entered track (start broken_script)) with
    | (Ret raw, s1) => normalize env raw s1
    | _ => (Ret [], start [])
    end.
Definition after_oddity :=
  Eval vm_compute in pipeline env track (entered track (start odd_script)).
Definition selection : list Entry.t :=
  Eval vm_compute in match after_select with (Ret l, _) => l | _ => [] end.
Definition halves : list Entry.t :=
  Eval vm_compute in match after_half with (Ret l, _) => l | _ => [] end.
Definition bare : Entry.t := Eval vm_compute in nth 1 halves c1.


Definition announced : state unit := mkState tt ([] ++ announce track).

(** The same package without its configuration: the search, the slider
    variant and the update of the configuration raise. *)
Definition unconfigured : Lib.t unit :=
  {| Lib.new_track := new_track;
     Lib.time_from_str := time_from_str;
     Lib.color_result := fun n => pretty n;
     Lib.color_yellow := fun s => s;
     Lib.google := fun _ _ w => (Raise (ConfigError "google key is missing"), w);
     Lib.beatport_domain := "beatport.com";
     Lib.zippy_domain := "zippyshare.com";
     Lib.beatport_get_metadata := get_metadata;
     Lib.slider := fun _ w => (Raise (ConfigError "slider is not set up"), w);
     Lib.mp3co := fun _ w => (Ret [d3], w);
     Lib.zippy_get_download := fun _ _ w => (Ret (Some d4), w);
     Lib.download := fun _ w => (Ret tt, w);
     Lib.config_set := fun _ _ _ w => (Ret tt, w);
     Lib.config_update := fun w => (Raise (ConfigError "cannot write"), w) |}.


(** The entries of the two objects of [good_json]. *)
Definition rs1 : Raw.t :=
  Raw.mk (JStr "17_42") (JStr "abc") "" (JInt 178) (JStr "Artist - Title").
Definition rs2 : Raw.t :=
  Raw.mk (JStr "17_43") (JStr "abd") "" (JInt 180) (JStr "Somebody - Else").





(** A batch whose first track has no duration anywhere, followed by the
    known track. *)
Definition unknown_first : Args.t :=
  argv lns ["Nobody - Nothing"; "Artist - Title"] NoDuration false false false.

(** The state in which [slizzy] leaves the unknown track. *)
Definition gave_up (tr : list event) : state unit :=
  mkState tt
    (tr ++ announce unknown ++ Invoke "google" "beatport.com"
        :: map consulted ["blank document"] ++ [unavailable]).

End Scenario.

(** * Properties *)

(** ** Running a computation step by step *)

Section Steps.

Context {W : Type}.

Lemma run_bind {A B} (c : M W A) (k : A -> M W B) (s : state W) :
  (c ≫= k) s =
  match c s with
  | (Ret a, s') => k a s'
  | (Raise e, s') => (Raise e, s')
  | (Exit n, s') => (Exit n, s')
  | (Hang, s') => (Hang, s')
  end.
Proof. reflexivity. Qed.

Lemma run_ret {A} (a : A) (s : state W) : (mret a : M W A) s = (Ret a, s).
Proof. reflexivity. Qed.

Lemma run_emit {B} (ev : event) (k : unit -> M W B) (s : state W) :
  (emit ev ≫= k) s = k tt (mkState (world s) (trace s ++ [ev])).
Proof. reflexivity. Qed.

Lemma run_lift_ok {A B} (a : A) (k : A -> M W B) (s : state W) :
  (lift (inr a) ≫= k) s = k a s.
Proof. reflexivity. Qed.

Lemma mapM_lift {A B} (f : A -> exn + B) (l : list A) (s : state W) :
  mapM (fun x => lift (f x)) l s = lift (collect f l) s.
Proof.
  revert s. induction l as [|x l IH]; intros s; [reflexivity|].
  cbn [mapM collect]. rewrite run_bind. unfold lift at 1.
  destruct (f x) as [e|y]; [reflexivity|].
  rewrite run_bind, IH. unfold lift.
  destruct (collect f l); reflexivity.
Qed.

Lemma mapM_ext {A B} (f g : A -> M W B) (l : list A) :
  (forall x s, f x s = g x s) -> forall s, mapM f l s = mapM g l s.
Proof.
  intros Hfg. induction l as [|x l IH]; intros s; [reflexivity|].
  cbn [mapM]. rewrite !run_bind, Hfg.
  destruct (g x s) as [[y|e|n|] s1]; try reflexivity.
  rewrite !run_bind, IH. reflexivity.
Qed.

Lemma state_eta (s : state W) : mkState (world s) (trace s) = s.
Proof. destruct s; reflexivity. Qed.

End Steps.

(** ** The retry loops of the adapter *)

Section Retry.

Import Slider.

Context (E : Env).

Lemma attempts_app url params n m :
  attempts url params n ++ attempts url params m = attempts url params (n + m).
Proof.
  induction n as [|n IH]; [reflexivity|].
  cbn [attempts app Nat.add]. rewrite IH. reflexivity.
Qed.

Lemma trace_rounds tr ev url params n :
  ((tr ++ [ev]) ++ attempts url params n) ++ attempts url params 1 =
  tr ++ ev :: attempts url params (S n).
Proof.
  rewrite <- !app_assoc, attempts_app, Nat.add_1_r. reflexivity.
Qed.



(** One round of the loop of [fetch] on a script that starts with an
    answer. *)
Lemma fetch_loop_answer fuel track c b rest tr :
  fetch_loop E (S fuel) track (mkState (Answer c b :: rest) tr) =
  let tr' := tr ++ attempts search_url (search_params track) 1 in
  if negb (c =? 200)
  then (Raise (HTTPError ("http code " +:+ pretty c +:+ ".")), mkState rest tr')
  else match json_loads E b with
       | inl e => (Raise e, mkState rest tr')
       | inr v => if isinstance_int v
                  then fetch_loop E fuel track (mkState rest tr')
                  else (Ret v, mkState rest tr')
       end.
Proof.
  cbn [fetch_loop]. rewrite run_emit. rewrite run_bind.
  unfold requests_get. cbn [world trace].
  rewrite <- app_assoc. cbn [app attempts status_code body].
  destruct (negb (c =? 200)); [reflexivity|].
  rewrite run_bind. unfold lift.
  destruct (json_loads E b) as [e|v]; [reflexivity|].
  destruct (isinstance_int v); reflexivity.
Qed.

Lemma fetch_loop_placeholders track pre :
  Forall (fun r => is_placeholder E r = true) pre ->
  forall fuel last rest tr,
    (length pre < fuel)%nat ->
    fetch_loop E fuel track (mkState (pre ++ last :: rest) tr) =
    fetch_loop E (fuel - length pre) track
      (mkState (last :: rest)
         (tr ++ attempts search_url (search_params track) (length pre))).
Proof.
  induction 1 as [|r pre Hr _ IH]; intros fuel last rest tr Hfuel.
  - cbn [length app attempts]. rewrite Nat.sub_0_r, app_nil_r. reflexivity.
  - destruct fuel as [|fuel]; [cbn in Hfuel; lia|].
    destruct r as [c b|e]; [|discriminate].
    cbn [is_placeholder] in Hr. apply andb_true_iff in Hr as [Hc Hv].
    cbn [app length]. rewrite fetch_loop_answer. cbv zeta.
    rewrite Hc. cbn [negb].
    destruct (json_loads E b) as [e|v]; [discriminate|].
    rewrite Hv. rewrite IH by (cbn in Hfuel; lia).
    cbn [Nat.sub]. rewrite <- app_assoc.
    change (attempts search_url (search_params track) 1 ++
            attempts search_url (search_params track) (length pre))
      with (attempts search_url (search_params track) (S (length pre))).
    reflexivity.
Qed.

(** One round of the loop of [fetch_info] on a script that starts with an
    answer. *)
Lemma fetch_info_loop_answer fuel url c b rest tr :
  fetch_info_loop E (S fuel) url (mkState (Answer c b :: rest) tr) =
  let tr' := tr ++ attempts url [] 1 in
  if negb (c =? 200)
  then (Ret None,
        mkState rest
          (tr' ++ [ProgressFinish
                     ("Failed to fetch metadata: http code " +:+ pretty c +:+ ".")
                     (Some lvl_warn)]))
  else match parse_info E (Str.split_br (Str.sub_b_tags b)) with
       | inl _ =>
           (Ret None,
            mkState rest
              (tr' ++ [ProgressFinish "Failed to fetch metadata: parse error."
                                      (Some lvl_warn)]))
       | inr data =>
           if Info.bitrate data =? 0
           then fetch_info_loop E fuel url (mkState rest tr')
           else (Ret (Some data), mkState rest tr')
       end.
Proof.
  cbn [fetch_info_loop]. rewrite run_emit. rewrite run_bind.
  unfold requests_get. cbn [world trace].
  rewrite <- app_assoc. cbn [app attempts status_code body].
  destruct (negb (c =? 200)); [reflexivity|].
  destruct (parse_info E (Str.split_br (Str.sub_b_tags b))) as [e|data];
    [reflexivity|].
  destruct (Info.bitrate data =? 0); reflexivity.
Qed.

Lemma fetch_info_loop_pending url pre :
  Forall (fun r => is_pending E r = true) pre ->
  forall fuel last rest tr,
    (length pre < fuel)%nat ->
    fetch_info_loop E fuel url (mkState (pre ++ last :: rest) tr) =
    fetch_info_loop E (fuel - length pre) url
      (mkState (last :: rest) (tr ++ attempts url [] (length pre))).
Proof.
  induction 1 as [|r pre Hr _ IH]; intros fuel last rest tr Hfuel.
  - cbn [length app attempts]. rewrite Nat.sub_0_r, app_nil_r. reflexivity.
  - destruct fuel as [|fuel]; [cbn in Hfuel; lia|].
    destruct r as [c b|e]; [|discriminate].
    cbn [is_pending] in Hr. apply andb_true_iff in Hr as [Hc Hv].
    cbn [app length]. rewrite fetch_info_loop_answer. cbv zeta.
    rewrite Hc. cbn [negb].
    destruct (parse_info E (Str.split_br (Str.sub_b_tags b))) as [e|data];
      [discriminate|].
    rewrite Hv. rewrite IH by (cbn in Hfuel; lia).
    cbn [Nat.sub]. rewrite <- app_assoc.
    change (attempts url [] 1 ++ attempts url [] (length pre))
      with (attempts url [] (S (length pre))).
    reflexivity.
Qed.

(** The loops started by [fetch] and [fetch_info] have fuel to spare: after
    the placeholders, at least one round is left for the reply that
    follows. *)
Lemma fuel_left {A} (pre : list A) (last : A) (rest : list A) :
  exists k, (S (length (pre ++ last :: rest)) - length pre = S k)%nat
            /\ (length pre < S (length (pre ++ last :: rest)))%nat.
Proof.
  exists (S (length rest)). rewrite length_app. cbn [length]. lia.
Qed.

(** What [fetch] does with a decoded response of the expected shape: the
    entries of its groups, in order, and the report of their number. *)
Lemma raw_entry_run key entry r (s : state World) :
  raw_of key entry = Some r -> raw_entry key entry s = (Ret r, s).
Proof.
  unfold raw_of, raw_entry. destruct entry as [| | | | | |d]; try discriminate.
  cbn [getitem].
  destruct (assoc "id" d); [|discriminate].
  destruct (assoc "ext" d); [|discriminate].
  destruct (assoc "duration" d); [|discriminate].
  destruct (assoc "tit_art" d); [|discriminate].
  intros H. injection H as <-. reflexivity.
Qed.

Lemma raw_entries_run key l (s : state World) :
  Forall (fun entry => raw_of key entry <> None) l ->
  mapM (raw_entry key) l s = (Ret (omap (raw_of key) l), s).
Proof.
  induction 1 as [|x l Hx _ IH]; [reflexivity|].
  cbn [mapM omap list_omap]. destruct (raw_of key x) as [r|] eqn:Hr;
    [|contradiction].
  rewrite run_bind, (raw_entry_run key x r s Hr), run_bind, IH. reflexivity.
Qed.

Lemma raw_groups_run groups (s : state World) :
  Forall group_ok groups ->
  mapM raw_group groups s = (Ret (map group_entries groups), s).
Proof.
  induction 1 as [|g groups (l & Hl & Hall) _ IH]; [reflexivity|].
  cbn [mapM map]. rewrite run_bind. unfold raw_group at 1, group_entries at 1.
  rewrite Hl. cbn [iterate]. rewrite run_lift_ok.
  rewrite (raw_entries_run (fst g) l s Hall), run_bind, IH. reflexivity.
Qed.




(** A body that cannot be decoded is not a placeholder: [fetch] raises on
    that attempt.  Likewise, a metadata page that cannot be read makes
    [fetch_info] report a parse error and return [None] at once. *)
Lemma undecodable_not_retried track b e rest tr :
  json_loads E b = inl e ->
  fetch E track (mkState (Answer 200 b :: rest) tr) =
  (Raise e,
   mkState rest
     (tr ++ Progress "slider" "Retrieving slider entries..."
         :: attempts search_url (search_params track) 1)).
Proof.
  intros Hb. unfold fetch. rewrite run_emit, run_bind. unfold retrieve.
  cbn [world trace length]. rewrite fetch_loop_answer. cbv zeta.
  cbn [Z.eqb Pos.eqb negb]. rewrite Hb, <- app_assoc. reflexivity.
Qed.

Lemma unreadable_not_retried id duration url b e rest tr :
  parse_info E (Str.split_br (Str.sub_b_tags b)) = inl e ->
  fetch_info E (JStr id) duration url (mkState (Answer 200 b :: rest) tr) =
  (Ret None,
   mkState rest
     ((tr ++ Progress "slider" ("Fetching metadata (" +:+ id +:+ ")...")
          :: attempts url [] 1)
      ++ [ProgressFinish "Failed to fetch metadata: parse error."
                         (Some lvl_warn)])).
Proof.
  intros Hb. unfold fetch_info. cbn [str_add].
  rewrite run_lift_ok, run_emit, run_bind. unfold metadata.
  cbn [world trace length]. rewrite fetch_info_loop_answer. cbv zeta.
  cbn [Z.eqb Pos.eqb negb]. rewrite Hb, <- !app_assoc. reflexivity.
Qed.

End Retry.

(** ** The boundary of the adapter *)

Section Boundary.

Import Slider.

Context (E : Env).

Lemma slider_run track s :
  slider E track s =
  match pipeline E track (entered track s) with
  | (Ret selected, s') => (Ret (map project selected), closed s')
  | (Raise e, s') => (Ret [], failed e s')
  | (Exit n, s') => (Exit n, closed s')
  | (Hang, s') => (Hang, s')
  end.
Proof.
  unfold slider. rewrite run_emit. fold (entered track s).
  unfold try_finally, try_except. rewrite run_bind.
  destruct (pipeline E track (entered track s)) as [[selected|e|n|] s'];
    cbn [is_Exception]; try reflexivity.
  rewrite run_emit. unfold failed. cbn. rewrite <- app_assoc. reflexivity.
Qed.

Lemma pipeline_run track s :
  pipeline E track s =
  match fetch E track s with
  | (Ret raw, s1) =>
      match normalize E raw s1 with
      | (Ret candidates, s2) => select E candidates track s2
      | (Raise e, s2) => (Raise e, s2)
      | (Exit n, s2) => (Exit n, s2)
      | (Hang, s2) => (Hang, s2)
      end
  | (Raise e, s1) => (Raise e, s1)
  | (Exit n, s1) => (Exit n, s1)
  | (Hang, s1) => (Hang, s1)
  end.
Proof.
  unfold pipeline. rewrite run_bind.
  destruct (fetch E track s) as [[raw|e|n|] s1]; try reflexivity.
Qed.

End Boundary.

Section Absorb.

Import Slider.

Context (E : Env).

(** C2. [slider] never lets a failure out.  Whatever the script, it does not
    end by raising.  When [fetch], [normalize] or [select] raises, the
    exception is caught and logged as an error, and the result is the empty
    list.  When the three of them return, the result has one entry per
    selected candidate, in the same order, whose name is the title of the
    candidate and whose link is its download address. *)
Theorem slider_absorbs_failures (track : Track.t) (s : state World) :
  (forall e, fst (slider E track s) <> Raise e)
  /\ (forall e s1,
        fetch E track (entered track s) = (Raise e, s1) ->
        slider E track s = (Ret [], failed e s1))
  /\ (forall raw s1 e s2,
        fetch E track (entered track s) = (Ret raw, s1) ->
        normalize E raw s1 = (Raise e, s2) ->
        slider E track s = (Ret [], failed e s2))
  /\ (forall raw s1 candidates s2 e s3,
        fetch E track (entered track s) = (Ret raw, s1) ->
        normalize E raw s1 = (Ret candidates, s2) ->
        select E candidates track s2 = (Raise e, s3) ->
        slider E track s = (Ret [], failed e s3))
  /\ (forall raw s1 candidates s2 selected s3,
        fetch E track (entered track s) = (Ret raw, s1) ->
        normalize E raw s1 = (Ret candidates, s2) ->
        select E candidates track s2 = (Ret selected, s3) ->
        slider E track s =
        (Ret (map (fun c => mkDownload (Entry.title c) (Entry.download c))
                  selected),
         closed s3)).
Proof.
  repeat split.
  - intros e. rewrite slider_run.
    destruct (pipeline E track (entered track s)) as [[sel|e'|n|] s'];
      cbn [fst]; discriminate.
  - intros e s1 Hf. rewrite slider_run, pipeline_run, Hf. reflexivity.
  - intros raw s1 e s2 Hf Hn.
    rewrite slider_run, pipeline_run, Hf, Hn. reflexivity.
  - intros raw s1 candidates s2 e s3 Hf Hn Hs.
    rewrite slider_run, pipeline_run, Hf, Hn, Hs. reflexivity.
  - intros raw s1 candidates s2 selected s3 Hf Hn Hs.
    rewrite slider_run, pipeline_run, Hf, Hn, Hs. reflexivity.
Qed.

End Absorb.

(** ** Selection *)

Section Selection.

Import Slider.

Context (E : Env).

Lemma score_gt_lt a b : score_gt a b = true <-> QArith_base.Qlt b a.
Proof.
  unfold score_gt. rewrite negb_true_iff, <- not_true_iff_false.
  rewrite QArith_base.Qle_bool_iff. split.
  - apply QArith_base.Qnot_le_lt.
  - apply QArith_base.Qlt_not_le.
Qed.

Lemma filter_filter {A} (f g : A -> bool) (l : list A) :
  List.filter f (List.filter g l) = List.filter (fun x => g x && f x) l.
Proof.
  induction l as [|x l IH]; [reflexivity|].
  cbn [List.filter]. destruct (g x); cbn [List.filter andb]; rewrite IH;
    reflexivity.
Qed.

Lemma entry_block_run entry s :
  entry_block E entry s = lift (block_text E entry) s.
Proof.
  unfold entry_block, block_text. rewrite run_bind. unfold lift at 1.
  destruct (str_add "Track: " (Entry.title entry)) as [e|t]; [reflexivity|].
  rewrite run_bind. unfold lift at 1.
  destruct (time_to_str E (Entry.duration entry)) as [e|d]; [reflexivity|].
  rewrite run_bind. unfold lift at 1.
  destruct (Entry.size entry) as [[q u]|]; reflexivity.
Qed.

Lemma partition_run track l s :
  partition (name_matches E track) l s =
  (Ret (List.filter (name_ok E track) l,
        List.filter (fun e => negb (name_ok E track e)) l),
   mkState (world s) (trace s ++ map (compared E) l)).
Proof.
  revert s. induction l as [|x l IH]; intros s.
  - cbn. rewrite app_nil_r, state_eta. reflexivity.
  - cbn [partition map List.filter]. rewrite run_bind.
    unfold name_matches at 1. rewrite run_emit, run_ret.
    rewrite run_bind, IH. cbn [world trace fst snd].
    rewrite <- app_assoc. cbn [app]. fold (compared E x).
    fold (name_ok E track x).
    destruct (name_ok E track x); reflexivity.
Qed.

(** The titles behind the lines of the report on filtered entries. *)
Lemma collect_titles (l : list Entry.t) names :
  collect (fun e => str_add "  " (Entry.title e)) l = inr names ->
  exists titles,
    map Entry.title l = map JStr titles
    /\ names = map (fun t => "  " +:+ t) titles.
Proof.
  revert names. induction l as [|x l IH]; intros names H.
  - cbn in H. injection H as <-. exists []. split; reflexivity.
  - cbn [collect] in H.
    destruct (Entry.title x) as [| | | |t| |] eqn:Hx; cbn [str_add] in H;
      try discriminate.
    destruct (collect _ l) as [e|ns] eqn:Hl; [discriminate|].
    injection H as <-.
    destruct (IH ns eq_refl) as (titles & Ht & Hn).
    exists (t :: titles). cbn [map]. rewrite Hx, Ht, Hn. split; reflexivity.
Qed.

Lemma select_run entries track s :
  select E entries track s =
  let candidates := List.filter (within_tolerance E track) entries in
  let selected := List.filter (name_ok E track) candidates in
  let filtered := List.filter (fun e => negb (name_ok E track e)) candidates in
  let tr1 := trace s ++ map (compared E) candidates in
  match rejection_report filtered with
  | inl e => (Raise e, mkState (world s) tr1)
  | inr report =>
      match collect (block_text E) selected with
      | inl e => (Raise e, mkState (world s) (tr1 ++ report))
      | inr blocks =>
          (Ret selected,
           mkState (world s)
             ((tr1 ++ report) ++ [Log "slider" (selected_msg E selected blocks) None]))
      end
  end.
Proof.
  unfold select. rewrite run_bind, partition_run. cbn [fst snd]. cbv zeta.
  set (candidates := List.filter (within_tolerance E track) entries).
  set (selected := List.filter (name_ok E track) candidates).
  set (filtered := List.filter (fun e => negb (name_ok E track e)) candidates).
  rewrite run_bind.
  assert (Hblocks : forall s0,
             (mapM (entry_block E) selected ≫=
              (fun blocks =>
                 emit (Log "slider"
                         ("Selected " +:+ color_result E (length selected) +:+ " " +:+
                          plural (length selected) "entry" "entries" +:+
                          (match selected with [] => "." | _ => ":" +:+ nl end) +:+
                          Str.join nl blocks) None) ;;
                 mret selected)) s0 =
             match collect (block_text E) selected with
             | inl e => (Raise e, s0)
             | inr blocks =>
                 (Ret selected,
                  mkState (world s0)
                    (trace s0 ++ [Log "slider" (selected_msg E selected blocks) None]))
             end).
  { intros s0. rewrite run_bind.
    rewrite (mapM_ext (entry_block E) (fun e => lift (block_text E e)))
      by apply entry_block_run.
    rewrite mapM_lift. unfold lift.
    destruct (collect (block_text E) selected) as [e|blocks]; reflexivity. }
  unfold rejection_report.
  destruct filtered as [|x filtered'] eqn:Hfiltered.
  - rewrite run_ret, Hblocks. cbn [world trace]. rewrite app_nil_r.
    destruct (collect (block_text E) selected); reflexivity.
  - rewrite run_bind, mapM_lift. unfold lift.
    destruct (collect _ (x :: filtered')) as [e|names]; [reflexivity|].
    unfold emit at 1. cbn [world trace].
    rewrite Hblocks. cbn [world trace].
    destruct (collect (block_text E) selected); reflexivity.
Qed.

Lemma collect_ok {A B} (f : A -> exn + B) (l : list A) :
  Forall (fun x => exists y, f x = inr y) l -> exists ys, collect f l = inr ys.
Proof.
  induction 1 as [|x l [y Hy] _ [ys IH]].
  - exists []. reflexivity.
  - exists (y :: ys). cbn [collect]. rewrite Hy, IH. reflexivity.
Qed.

Lemma within_tolerance_size track e :
  within_tolerance E track e = true -> exists sz, Entry.size e = Some sz.
Proof.
  unfold within_tolerance. intros H.
  apply andb_true_iff in H as [_ H]. apply andb_true_iff in H as [H _].
  destruct (Entry.size e) as [sz|]; [eauto|discriminate].
Qed.

Lemma block_text_ok track e :
  within_tolerance E track e = true -> printable E e ->
  exists text, block_text E e = inr text.
Proof.
  intros Htol [[t Ht] [d Hd]]. unfold block_text.
  destruct (within_tolerance_size track e Htol) as [[q u] Hsz].
  rewrite Ht, Hd, Hsz. cbn [str_add]. eauto.
Qed.

Lemma rejection_report_ok (l : list Entry.t) :
  Forall (fun e => exists t, Entry.title e = JStr t) l ->
  exists report, rejection_report l = inr report.
Proof.
  intros H. unfold rejection_report. destruct l as [|x l]; [eauto|].
  destruct (collect_ok (fun e => str_add "  " (Entry.title e)) (x :: l))
    as [names Hn].
  - eapply Forall_impl; [exact H|]. cbn beta. intros e [t Ht].
    rewrite Ht. cbn [str_add]. eauto.
  - rewrite Hn. eauto.
Qed.

Lemma Forall_filter {A} (P : A -> Prop) (f : A -> bool) (l : list A) :
  Forall P l -> Forall P (List.filter f l).
Proof.
  induction 1 as [|x l Hx _ IH]; cbn [List.filter]; [constructor|].
  destruct (f x); [constructor|]; assumption.
Qed.

Lemma Forall_filter_true {A} (f : A -> bool) (l : list A) :
  Forall (fun x => f x = true) (List.filter f l).
Proof.
  induction l as [|x l IH]; cbn [List.filter]; [constructor|].
  destruct (f x) eqn:Hx; [constructor|]; assumption.
Qed.

Lemma accepted_iff track e :
  accepted E track e = true <->
  tolerance_duration E (Track.duration track) (Entry.duration e) = true
  /\ Entry.size e <> None
  /\ tolerance_bitrate E (Entry.bitrate e) = true
  /\ QArith_base.Qlt (fuzz_threshold E)
                     (fuzz_match E (Entry.title e) (Track.title track)).
Proof.
  unfold accepted, within_tolerance, name_ok.
  rewrite !andb_true_iff, score_gt_lt.
  destruct (Entry.size e); intuition congruence.
Qed.

Lemma select_returns_accepted entries track s selected s' :
  select E entries track s = (Ret selected, s') ->
  selected = List.filter (accepted E track) entries /\ world s' = world s.
Proof.
  intros Hsel. rewrite select_run in Hsel. cbv zeta in Hsel.
  rewrite !filter_filter in Hsel. fold (accepted E track) in Hsel.
  destruct (rejection_report _) as [e|report]; [discriminate|].
  destruct (collect (block_text E) _) as [e|blocks]; [discriminate|].
  injection Hsel as <- <-. split; reflexivity.
Qed.

(** C4. What [select] returns and in which order it works.  [select]
    returns whenever the entries within tolerance can be reported on.  What
    it returns is the list of the entries that are within the duration and
    the bitrate tolerance and whose fuzzy score is strictly above the
    threshold, in their original order.  The fuzzy comparison is made on the
    entries that passed the tolerance checks and on no other, so the
    tolerance rejection comes first.  The entries that passed the tolerance
    checks and failed by name are kept apart and, when there are any, named
    in a report of their own. *)
Theorem select_filters_then_matches (entries : list Entry.t) (track : Track.t)
    (s : state World) :
  (Forall (printable E) (List.filter (within_tolerance E track) entries) ->
   exists selected s', select E entries track s = (Ret selected, s'))
  /\ (forall e,
        accepted E track e = true <->
        tolerance_duration E (Track.duration track) (Entry.duration e) = true
        /\ Entry.size e <> None
        /\ tolerance_bitrate E (Entry.bitrate e) = true
        /\ QArith_base.Qlt (fuzz_threshold E)
                           (fuzz_match E (Entry.title e) (Track.title track)))
  /\ (forall selected s',
        select E entries track s = (Ret selected, s') ->
        selected = List.filter (accepted E track) entries
        /\ world s' = world s
        /\ exists report blocks,
             trace s' =
             trace s
             ++ map (compared E) (List.filter (within_tolerance E track) entries)
             ++ report
             ++ [Log "slider" (selected_msg E selected blocks) None]
             /\ match List.filter (rejected_by_name E track) entries with
                | [] => report = []
                | filtered =>
                    exists titles,
                      map Entry.title filtered = map JStr titles
                      /\ report = [Log "slider" (filtered_msg titles) None]
                end).
Proof.
  split; [|split].
  - intros Hprint. rewrite select_run. cbv zeta.
    set (candidates := List.filter (within_tolerance E track) entries) in *.
    destruct (rejection_report_ok
                (List.filter (fun e => negb (name_ok E track e)) candidates))
      as [report Hr].
    { apply Forall_filter. eapply Forall_impl; [exact Hprint|].
      intros e [Ht _]. exact Ht. }
    rewrite Hr.
    destruct (collect_ok (block_text E) (List.filter (name_ok E track) candidates))
      as [blocks Hb].
    { apply Forall_filter.
      pose proof (Forall_filter_true (within_tolerance E track) entries) as Htol.
      fold candidates in Htol.
      rewrite Forall_forall in *. intros e He.
      eapply block_text_ok; eauto. }
    rewrite Hb. eauto.
  - apply accepted_iff.
  - intros selected s' Hsel. rewrite select_run in Hsel. cbv zeta in Hsel.
    rewrite !filter_filter in Hsel.
    fold (accepted E track) in Hsel.
    change (fun x => within_tolerance E track x && negb (name_ok E track x))
      with (rejected_by_name E track) in Hsel.
    destruct (rejection_report (List.filter (rejected_by_name E track) entries))
      as [e|report] eqn:Hr; [discriminate|].
    destruct (collect (block_text E) (List.filter (accepted E track) entries))
      as [e|blocks] eqn:Hb; [discriminate|].
    injection Hsel as <- <-. cbn [world trace].
    split; [reflexivity|]. split; [reflexivity|].
    exists report, blocks. split.
    + rewrite <- !app_assoc. reflexivity.
    + unfold rejection_report in Hr.
      destruct (List.filter (rejected_by_name E track) entries) as [|x l];
        [injection Hr as <-; reflexivity|].
      destruct (collect _ (x :: l)) as [e|names] eqn:Hn; [discriminate|].
      injection Hr as <-.
      destruct (collect_titles (x :: l) names Hn) as (titles & Ht & Hnames).
      exists titles. split; [exact Ht|].
      unfold filtered_msg. subst names.
      assert (Hlen : length (x :: l) = length titles).
      { rewrite <- (length_map Entry.title), Ht, length_map. reflexivity. }
      cbn [length] in Hlen. rewrite Hlen. reflexivity.
Qed.

End Selection.

(** ** Candidates without metadata *)

Section Metadata.

Import Slider.

Context (E : Env).

Lemma fetch_info_loop_some fuel url s data s' :
  fetch_info_loop E fuel url s = (Ret (Some data), s') ->
  Info.bitrate data <> 0.
Proof.
  revert s. induction fuel as [|fuel IH]; intros s H; [discriminate|].
  cbn [fetch_info_loop] in H. rewrite run_emit, run_bind in H.
  unfold requests_get in H. cbn [world trace] in H.
  destruct (world s) as [|[c b|e] rest]; try discriminate.
  cbn [status_code body] in H.
  destruct (negb (c =? 200)); [discriminate|].
  destruct (parse_info E (Str.split_br (Str.sub_b_tags b))) as [e|d];
    [discriminate|].
  destruct (Info.bitrate d =? 0) eqn:Hd.
  - eapply IH. exact H.
  - injection H as <- _. apply Z.eqb_neq. exact Hd.
Qed.

Lemma fetch_info_some id duration url s data s' :
  fetch_info E id duration url s = (Ret (Some data), s') ->
  Info.bitrate data <> 0.
Proof.
  unfold fetch_info. rewrite run_bind. unfold lift at 1.
  destruct (str_add "Fetching metadata (" id) as [e|head]; [discriminate|].
  rewrite run_emit, run_bind. unfold metadata.
  match goal with
  | |- context [fetch_info_loop E ?f url ?s0] =>
      destruct (fetch_info_loop E f url s0) as [[[d|]|e|n|] s1] eqn:Hloop
  end; try discriminate.
  unfold fetched. rewrite run_bind. unfold lift at 1.
  destruct (time_to_str E duration) as [e|t]; [discriminate|].
  rewrite run_emit, run_ret. intros H. injection H as <- _.
  eapply fetch_info_loop_some. exact Hloop.
Qed.

Lemma norm_metadata e s entry s' :
  norm E e s = (Ret entry, s') -> metadata_complete entry.
Proof.
  unfold norm. rewrite run_bind.
  match goal with
  | |- context [fetch_info E ?i ?d ?u s] =>
      destruct (fetch_info E i d u s) as [[[data|]|x|n|] s1] eqn:Hinfo
  end; try discriminate; rewrite run_ret; intros H; injection H as <- _.
  - right. exists (Info.bitrate data), (Info.size data).
    cbn. split; [reflexivity|]. split; [|reflexivity].
    eapply fetch_info_some. exact Hinfo.
  - left. split; reflexivity.
Qed.

Lemma mapM_Forall {A B} (f : A -> M World B) (P : B -> Prop) :
  (forall x s y s', f x s = (Ret y, s') -> P y) ->
  forall l s ys s', mapM f l s = (Ret ys, s') -> Forall P ys.
Proof.
  intros Hf. induction l as [|x l IH]; intros s ys s' H.
  - cbn in H. injection H as <- _. constructor.
  - cbn [mapM] in H. rewrite run_bind in H.
    destruct (f x s) as [[y|e|n|] s1] eqn:Hx; try discriminate.
    rewrite run_bind in H.
    destruct (mapM f l s1) as [[zs|e|n|] s2] eqn:Hl; try discriminate.
    rewrite run_ret in H. injection H as <- _.
    constructor; [eapply Hf; exact Hx|eapply IH; exact Hl].
Qed.

Lemma normalize_metadata raw s candidates s' :
  normalize E raw s = (Ret candidates, s') ->
  Forall metadata_complete candidates.
Proof. apply mapM_Forall. apply norm_metadata. Qed.

Lemma selected_within_tolerance entries track s selected s' e :
  select E entries track s = (Ret selected, s') ->
  In e selected -> within_tolerance E track e = true.
Proof.
  intros Hsel Hin.
  destruct (select_returns_accepted E entries track s selected s' Hsel)
    as [-> _].
  apply filter_In in Hin as [_ Hacc].
  unfold accepted in Hacc. apply andb_true_iff in Hacc as [H _]. exact H.
Qed.

(** C5. No pass without metadata.  A candidate whose size is unknown is
    never among the entries that [select] returns.  For the candidates that
    [normalize] builds, a bitrate that is absent or 0 only comes together
    with an unknown size, so such a candidate is never selected either,
    whatever the acceptance set of the bitrate is.  For an arbitrary entry
    with a size, an absent or zero bitrate is rejected as soon as the
    acceptance set of [tolerance.bitrate] holds neither [None] nor 0. *)
Theorem unknown_metadata_rejected (track : Track.t) :
  (forall entries s selected s' e,
      select E entries track s = (Ret selected, s') ->
      Entry.size e = None -> ~ In e selected)
  /\ (forall raw s candidates s1 selected s2 e,
        normalize E raw s = (Ret candidates, s1) ->
        select E candidates track s1 = (Ret selected, s2) ->
        In e candidates ->
        Entry.bitrate e = None \/ Entry.bitrate e = Some 0
        \/ Entry.size e = None ->
        Entry.size e = None /\ ~ In e selected)
  /\ (tolerance_bitrate E None = false ->
      tolerance_bitrate E (Some 0) = false ->
      forall entries s selected s' e,
        select E entries track s = (Ret selected, s') ->
        Entry.bitrate e = None \/ Entry.bitrate e = Some 0 ->
        ~ In e selected).
Proof.
  assert (Hsize : forall entries s selected s' e,
             select E entries track s = (Ret selected, s') ->
             Entry.size e = None -> ~ In e selected).
  { intros entries s selected s' e Hsel Hsz Hin.
    pose proof (selected_within_tolerance _ _ _ _ _ _ Hsel Hin) as Htol.
    destruct (within_tolerance_size E track e Htol) as [sz Hsome].
    congruence. }
  split; [exact Hsize|]. split.
  - intros raw s candidates s1 selected s2 e Hnorm Hsel Hin Hunknown.
    assert (Hsz : Entry.size e = None).
    { pose proof (normalize_metadata _ _ _ _ Hnorm) as Hall.
      rewrite Forall_forall in Hall. specialize (Hall e).
      destruct Hall as [[_ Hnone]|(b & sz & Hb & Hnz & _)].
      - apply list_elem_of_In. exact Hin.
      - exact Hnone.
      - destruct Hunknown as [Hu|[Hu|Hu]]; [congruence| |exact Hu].
        rewrite Hb in Hu. injection Hu as ->. contradiction. }
    split; [exact Hsz|]. eapply Hsize; eassumption.
  - intros Hnone Hzero entries s selected s' e Hsel Hunknown Hin.
    pose proof (selected_within_tolerance _ _ _ _ _ _ Hsel Hin) as Htol.
    unfold within_tolerance in Htol.
    apply andb_true_iff in Htol as [_ Htol].
    apply andb_true_iff in Htol as [_ Htol].
    destruct Hunknown as [Hu|Hu]; rewrite Hu in Htol; congruence.
Qed.

End Metadata.

(** ** The enabled variants *)

Section Variants.

Import Main.

(** C7. Which variants are enabled.  Without any of the three flags, the
    enabled set is [all_modules], which holds every variant.  With at least
    one flag, a variant is enabled exactly when its flag is given. *)
Theorem enabled_modules_default (args : Args.t) :
  (Args.slider args = false -> Args.mp3co args = false ->
   Args.zippy args = false ->
   enabled_modules args = all_modules
   /\ all_modules = {[ module.slider; module.mp3co; module.zippy ]}
   /\ forall m, m ∈ enabled_modules args)
  /\ (Args.slider args = true \/ Args.mp3co args = true
      \/ Args.zippy args = true ->
      forall m, m ∈ enabled_modules args <-> flag args m = true).
Proof.
  unfold enabled_modules, flag.
  destruct (Args.slider args), (Args.mp3co args), (Args.zippy args);
    cbn [List.filter map fst snd list_to_set];
    (split;
     [ intros; try discriminate
     | intros Hsome m; try (destruct Hsome as [?|[?|?]]; discriminate) ]).
  all: try (case_decide as Hempty; [exfalso; set_solver|]).
  all: try (destruct m; split; intros; try reflexivity; try discriminate;
            set_solver).
  case_decide as Hempty; [|exfalso; apply Hempty; set_solver].
  split; [reflexivity|]. split; [reflexivity|].
  intros []; unfold all_modules; set_solver.
Qed.

End Variants.

(** ** Validation of the command line *)

Section Validation.

Import Main.

Context {W : Type} (L : Lib.t W).


(** [parse_args] writes nothing when it returns, and changes nothing but the
    duration. *)
Lemma parse_args_returns argv s args s' :
  parse_args L argv s = (Ret args, s') ->
  s' = s /\ Args.command args = Args.command argv
  /\ Args.tracks args = Args.tracks argv.
Proof.
  unfold parse_args.
  destruct (is_search (Args.command argv));
    [|intros H; injection H as <- <-; auto].
  destruct (Args.duration argv) as [|text|z];
    try (intros H; injection H as <- <-; auto).
  destruct (negb (String.eqb text ""));
    [|intros H; injection H as <- <-; auto].
  rewrite run_bind.
  destruct (1 <? length (Args.tracks argv))%nat.
  - rewrite run_emit. discriminate.
  - rewrite run_ret. destruct (Lib.time_from_str L text) as [e|z].
    + rewrite run_emit. discriminate.
    + rewrite run_ret. intros H. injection H as <- <-. auto.
Qed.

Lemma make_tracks_refused before bad after d s :
  Forall (fun t => Lib.new_track L t d <> None) before ->
  Lib.new_track L bad d = None ->
  make_tracks L (before ++ bad :: after) d s =
  (Exit 1, mkState (world s) (trace s ++ [bad_format bad])).
Proof.
  intros Hbefore Hbad. induction Hbefore as [|t before Ht _ IH].
  - cbn [app make_tracks]. rewrite Hbad, run_emit. reflexivity.
  - cbn [app make_tracks].
    destruct (Lib.new_track L t d) as [tr|]; [|contradiction].
    rewrite run_bind, IH. reflexivity.
Qed.


(** C1, as the code has it.  When [Track] refuses the text of one of the
    tracks of a search command whose arguments are otherwise valid, [main]
    reports the first such text and ends with status 1.  All it has done by
    then is to print that error: none of the tracks of the batch is
    processed, whether they come before or after the refused one. *)
Theorem unparseable_track_ends_invocation (argv args : Args.t)
    (before after : list string) (bad : string) (s s1 : state W) :
  is_search (Args.command argv) = true ->
  parse_args L argv s = (Ret args, s1) ->
  Args.tracks argv = before ++ bad :: after ->
  Forall (fun t => Lib.new_track L t (Args.duration args) <> None) before ->
  Lib.new_track L bad (Args.duration args) = None ->
  main L argv s = (Exit 1, mkState (world s) (trace s ++ [bad_format bad])).
Proof.
  intros Hcmd Hparse Htracks Hbefore Hbad.
  destruct (parse_args_returns _ _ _ _ Hparse) as (-> & Hc & Ht).
  unfold main. rewrite run_bind, Hparse. rewrite run_bind.
  rewrite Hc, Hcmd, Ht, Htracks. rewrite run_bind.
  rewrite (make_tracks_refused before bad after _ _ Hbefore Hbad).
  reflexivity.
Qed.

End Validation.

(** ** The orchestrator *)

Section Orchestrator.

Import Main.

Context {W : Type} (L : Lib.t W).

Lemma first_duration_cons track page rest s :
  first_duration L track (page :: rest) s =
  let tr := trace s ++ [consulted page] in
  match Lib.beatport_get_metadata L track page (world s) with
  | (Ret (Some d), w) =>
      if has_duration (Some d) then (Ret d, mkState w tr)
      else first_duration L track rest (mkState w tr)
  | (Ret None, w) => first_duration L track rest (mkState w tr)
  | (Raise e, w) =>
      (Raise (if is_StopIteration e
              then RuntimeError "generator raised StopIteration" else e),
       mkState w tr)
  | (Exit n, w) => (Exit n, mkState w tr)
  | (Hang, w) => (Hang, mkState w tr)
  end.
Proof.
  cbn [first_duration]. rewrite run_emit, run_bind.
  unfold in_generator, try_except, call. cbn [world trace]. fold (consulted page).
  destruct (Lib.beatport_get_metadata L track page (world s))
    as [[[d|]|e|n|] w]; cbn [fst snd]; try reflexivity.
  - destruct (has_duration (Some d)); reflexivity.
  - destruct (is_StopIteration e); reflexivity.
Qed.

(** When the search for a duration runs out of documents, every document
    has been consulted and nothing else has happened. *)
Lemma first_duration_exhausted track pages s s' :
  first_duration L track pages s = (Raise StopIteration, s') ->
  trace s' = trace s ++ map consulted pages.
Proof.
  revert s. induction pages as [|page rest IH]; intros s H.
  - cbn in H. injection H as <-. cbn. rewrite app_nil_r. reflexivity.
  - rewrite first_duration_cons in H. cbv zeta in H.
    destruct (Lib.beatport_get_metadata L track page (world s))
      as [[[d|]|e|n|] w]; try discriminate.
    + destruct (has_duration (Some d)); [discriminate|].
      apply IH in H. cbn [trace map] in *. rewrite H, <- app_assoc. reflexivity.
    + apply IH in H. cbn [trace map] in *. rewrite H, <- app_assoc. reflexivity.
    + destruct e; discriminate.
Qed.

(** The first document that yields a duration decides; the documents after
    it are not consulted. *)
Lemma first_duration_first track before page after d w2 :
  d <> 0 ->
  forall s s1,
    first_duration L track before s = (Raise StopIteration, s1) ->
    Lib.beatport_get_metadata L track page (world s1) = (Ret (Some d), w2) ->
    first_duration L track (before ++ page :: after) s =
    (Ret d, mkState w2 (trace s1 ++ [consulted page])).
Proof.
  intros Hd. induction before as [|p before IH]; intros s s1 Hnone Hpage.
  - cbn in Hnone. injection Hnone as <-. cbn [app].
    rewrite first_duration_cons, Hpage. cbv zeta. cbn [has_duration].
    apply Z.eqb_neq in Hd. rewrite Hd. reflexivity.
  - cbn [app]. rewrite first_duration_cons in *. cbv zeta in *.
    destruct (Lib.beatport_get_metadata L track p (world s))
      as [[[d0|]|e|n|] w]; try discriminate.
    + destruct (has_duration (Some d0)); [discriminate|].
      apply IH; assumption.
    + apply IH; assumption.
    + destruct e; discriminate.
Qed.

Lemma slizzy_run track modules download_tracks s :
  slizzy L track modules download_tracks s =
  match resolve_duration L track
          (mkState (world s) (trace s ++ announce track)) with
  | (Ret None, s1) => (Ret tt, s1)
  | (Ret (Some track'), s1) =>
      match from_slider L track' modules s1 with
      | (Ret a, sa) =>
          match from_mp3co L track' modules sa with
          | (Ret b, sb) =>
              match from_zippy L track' modules sb with
              | (Ret c, sc) => report L download_tracks a b c sc
              | (Raise e, sc) => (Raise e, sc)
              | (Exit n, sc) => (Exit n, sc)
              | (Hang, sc) => (Hang, sc)
              end
          | (Raise e, sb) => (Raise e, sb)
          | (Exit n, sb) => (Exit n, sb)
          | (Hang, sb) => (Hang, sb)
          end
      | (Raise e, sa) => (Raise e, sa)
      | (Exit n, sa) => (Exit n, sa)
      | (Hang, sa) => (Hang, sa)
      end
  | (Raise e, s1) => (Raise e, s1)
  | (Exit n, s1) => (Exit n, s1)
  | (Hang, s1) => (Hang, s1)
  end.
Proof.
  unfold slizzy. rewrite !run_emit. cbn [world trace].
  rewrite <- !app_assoc. cbn [app]. fold (announce track).
  rewrite run_bind.
  destruct (resolve_duration L track _) as [[[track'|]|e|n|] s1];
    try reflexivity.
  rewrite run_bind. unfold gather. rewrite run_bind.
  destruct (from_slider L track' modules s1) as [[a|e|n|] sa]; try reflexivity.
  rewrite run_bind.
  destruct (from_mp3co L track' modules sa) as [[b|e|n|] sb]; try reflexivity.
  rewrite run_bind.
  destruct (from_zippy L track' modules sb) as [[c|e|n|] sc]; try reflexivity.
Qed.

Lemma resolve_duration_run track s :
  has_duration (Track.duration track) = false ->
  resolve_duration L track s =
  match Lib.google L track (Lib.beatport_domain L) (world s) with
  | (Ret pages, w1) =>
      match first_duration L track pages
              (mkState w1 (trace s ++ [Invoke "google" (Lib.beatport_domain L)]))
      with
      | (Ret d, s2) =>
          (Ret (Some (Track.mk (Track.title track) (Track.query_string track)
                               (Some d))), s2)
      | (Raise e, s2) =>
          if is_StopIteration e
          then (Ret None, mkState (world s2) (trace s2 ++ [unavailable]))
          else (Raise e, s2)
      | (Exit n, s2) => (Exit n, s2)
      | (Hang, s2) => (Hang, s2)
      end
  | (Raise e, w1) =>
      let s2 := mkState w1 (trace s ++ [Invoke "google" (Lib.beatport_domain L)]) in
      if is_StopIteration e
      then (Ret None, mkState (world s2) (trace s2 ++ [unavailable]))
      else (Raise e, s2)
  | (Exit n, w1) =>
      (Exit n, mkState w1 (trace s ++ [Invoke "google" (Lib.beatport_domain L)]))
  | (Hang, w1) =>
      (Hang, mkState w1 (trace s ++ [Invoke "google" (Lib.beatport_domain L)]))
  end.
Proof.
  intros Hno. unfold resolve_duration. rewrite Hno.
  unfold try_except. rewrite run_emit, run_bind. unfold call.
  cbn [world trace].
  destruct (Lib.google L track (Lib.beatport_domain L) (world s))
    as [[pages|e|n|] w1]; cbn [fst snd]; try reflexivity.
  rewrite run_bind.
  destruct (first_duration L track pages _) as [[d|e|n|] s2]; reflexivity.
Qed.



Lemma announcements_app tr1 tr2 :
  announcements (tr1 ++ tr2) = announcements tr1 ++ announcements tr2.
Proof. unfold announcements. apply List.filter_app. Qed.

Lemma quiet_ret {A} (a : A) : quiet (mret a : M W A).
Proof. intros s. reflexivity. Qed.

Lemma quiet_raise {A} (e : exn) : quiet (raise e : M W A).
Proof. intros s. reflexivity. Qed.

Lemma quiet_lift {A} (r : exn + A) : quiet (lift r : M W A).
Proof. intros s. unfold lift. destruct r; reflexivity. Qed.

Lemma quiet_call {A} (f : Ext W A) : quiet (call f).
Proof. intros s. reflexivity. Qed.

Lemma quiet_emit ev : announcements [ev] = [] -> quiet (emit ev : M W unit).
Proof.
  intros Hev s. cbn [emit snd trace]. rewrite announcements_app, Hev.
  apply app_nil_r.
Qed.

Lemma quiet_bind {A B} (c : M W A) (k : A -> M W B) :
  quiet c -> (forall a, quiet (k a)) -> quiet (c ≫= k).
Proof.
  intros Hc Hk s. rewrite run_bind. specialize (Hc s).
  destruct (c s) as [[a|e|n|] s1]; cbn [snd] in *; try exact Hc.
  rewrite Hk. exact Hc.
Qed.

Lemma quiet_try_except {A} cls (c : M W A) h :
  quiet c -> (forall e, quiet (h e)) -> quiet (try_except cls c h).
Proof.
  intros Hc Hh s. unfold try_except. specialize (Hc s).
  destruct (c s) as [[a|e|n|] s1]; cbn [snd] in *; try exact Hc.
  destruct (cls e); [|exact Hc]. rewrite Hh. exact Hc.
Qed.

Lemma quiet_mapM {A B} (f : A -> M W B) (l : list A) :
  (forall x, quiet (f x)) -> quiet (mapM f l).
Proof.
  intros Hf. induction l as [|x l IH]; cbn [mapM]; [apply quiet_ret|].
  apply quiet_bind; [apply Hf|]. intros y.
  apply quiet_bind; [exact IH|]. intros ys. apply quiet_ret.
Qed.

Ltac quiet :=
  repeat first
    [ apply quiet_ret | apply quiet_raise | apply quiet_lift | apply quiet_call
    | apply quiet_emit; reflexivity
    | apply quiet_bind; [|intros ?]
    | apply quiet_try_except; [|intros ?]
    | apply quiet_mapM; intros ?
    | match goal with
      | |- quiet (if ?b then _ else _) => destruct b
      | |- quiet (match ?x with _ => _ end) => destruct x
      end ].

Lemma first_duration_quiet track pages : quiet (first_duration L track pages).
Proof.
  induction pages as [|page rest IH]; cbn [first_duration]; [apply quiet_raise|].
  apply quiet_bind; [apply quiet_emit; reflexivity|]. intros _.
  apply quiet_bind; [unfold in_generator; quiet|]. intros [d|]; [|exact IH].
  destruct (has_duration (Some d)); [apply quiet_ret|exact IH].
Qed.

Lemma zippy_pages_quiet track pages : quiet (zippy_pages L track pages).
Proof.
  induction pages as [|page rest IH]; cbn [zippy_pages]; [apply quiet_ret|].
  apply quiet_bind; [apply quiet_emit; reflexivity|]. intros _.
  apply quiet_bind; [apply quiet_call|]. intros found.
  apply quiet_bind; [exact IH|]. intros others. apply quiet_ret.
Qed.

Lemma resolve_duration_quiet track : quiet (resolve_duration L track).
Proof.
  unfold resolve_duration. destruct (has_duration _); [apply quiet_ret|].
  apply quiet_try_except.
  - apply quiet_bind; [apply quiet_emit; reflexivity|]. intros _.
    apply quiet_bind; [apply quiet_call|]. intros pages.
    apply quiet_bind; [apply first_duration_quiet|]. intros d. apply quiet_ret.
  - intros e. quiet.
Qed.

Lemma gather_quiet track modules : quiet (gather L track modules).
Proof.
  unfold gather, from_slider, from_mp3co, from_zippy.
  apply quiet_bind; [quiet|]. intros a.
  apply quiet_bind; [quiet|]. intros b.
  apply quiet_bind; [|intros c; apply quiet_ret].
  destruct (decide _); [|apply quiet_ret].
  apply quiet_bind; [apply quiet_emit; reflexivity|]. intros _.
  apply quiet_bind; [apply quiet_call|]. intros pages.
  apply zippy_pages_quiet.
Qed.

Lemma report_quiet download_tracks a b c : quiet (report L download_tracks a b c).
Proof.
  unfold report, url_line. quiet.
Qed.

(** [slizzy] announces its track, once, whatever happens afterwards. *)
Lemma slizzy_announces track modules download_tracks s :
  announcements (trace (snd (slizzy L track modules download_tracks s))) =
  announcements (trace s) ++ [magic track].
Proof.
  unfold slizzy. rewrite run_emit.
  match goal with
  | |- context [(?c ≫= ?k) ?s0] =>
      assert (Hq : quiet (c ≫= k)); [|rewrite (Hq s0)]
  end.
  - apply quiet_bind; [apply quiet_emit; reflexivity|]. intros _.
    apply quiet_bind; [apply quiet_emit; reflexivity|]. intros _.
    apply quiet_bind; [apply resolve_duration_quiet|]. intros [t|];
      [|apply quiet_ret].
    apply quiet_bind; [apply gather_quiet|]. intros found. apply report_quiet.
  - cbn [trace]. rewrite announcements_app. reflexivity.
Qed.

Lemma remaining_tracks_announces tracks modules download_tracks :
  forall s,
    exists done rest,
      tracks = done ++ rest
      /\ announcements
           (trace (snd (remaining_tracks L tracks modules download_tracks s)))
         = announcements (trace s) ++ map magic done
      /\ (fst (remaining_tracks L tracks modules download_tracks s) = Ret tt ->
          rest = []).
Proof.
  induction tracks as [|track tracks IH]; intros s.
  - exists [], []. cbn. rewrite app_nil_r. auto.
  - cbn [remaining_tracks]. rewrite run_emit, run_bind.
    pose proof (slizzy_announces track modules download_tracks
                  (mkState (world s)
                     (trace s ++ [Print (Lib.color_yellow L separator)])))
      as Hone.
    cbn [trace] in Hone. rewrite announcements_app in Hone.
    cbn [announcements List.filter] in Hone. rewrite app_nil_r in Hone.
    destruct (slizzy L track modules download_tracks _) as [[[]|e|n|] s1];
      cbn [fst snd] in *;
      try (exists [track], tracks; split; [reflexivity|];
           split; [exact Hone|discriminate]).
    destruct (IH s1) as (done & rest & -> & Htr & Hret).
    exists (track :: done), rest. split; [reflexivity|]. split.
    + rewrite Htr, Hone, <- app_assoc. reflexivity.
    + exact Hret.
Qed.

(** The track that comes next in the loop of [main] is started on, whatever
    becomes of it and of the tracks after it. *)
Lemma remaining_tracks_starts next more modules download_tracks s :
  exists done,
    announcements
      (trace (snd (remaining_tracks L (next :: more) modules download_tracks s)))
    = announcements (trace s) ++ magic next :: map magic done.
Proof.
  cbn [remaining_tracks]. rewrite run_emit, run_bind.
  pose proof (slizzy_announces next modules download_tracks
                (mkState (world s)
                   (trace s ++ [Print (Lib.color_yellow L separator)])))
    as Hone.
  cbn [trace] in Hone. rewrite announcements_app in Hone.
  cbn [announcements List.filter] in Hone. rewrite app_nil_r in Hone.
  destruct (slizzy L next modules download_tracks _) as [[[]|e|n|] s1];
    cbn [fst snd] in *; try (exists []; exact Hone).
  destruct (remaining_tracks_announces more modules download_tracks s1)
    as (done & rest & _ & Htr & _).
  exists done. rewrite Htr, Hone, <- app_assoc. reflexivity.
Qed.

(** The handler of [main] for a configuration error announces no track. *)
Lemma config_failed_quiet (c : M W unit) s :
  announcements (trace (snd (try_except is_ConfigError c config_failed s)))
  = announcements (trace (snd (c s))).
Proof.
  unfold try_except. destruct (c s) as [[[]|e|n|] s1]; try reflexivity.
  destruct (is_ConfigError e); [|reflexivity].
  unfold config_failed. rewrite run_emit. unfold sys_exit.
  cbn [fst snd trace world]. rewrite announcements_app.
  cbn [announcements List.filter]. apply app_nil_r.
Qed.

(** A search command does nothing after its batch. *)
Lemma search_then_nothing (args : Args.t) (c k : M W unit) s :
  is_search (Args.command args) = true ->
  (c ;; match Args.command args with cfg => k | _ => mret tt end) s = c s.
Proof.
  intros Hsearch. rewrite run_bind.
  destruct (c s) as [[[]|e|n|] s1]; try reflexivity.
  destruct (Args.command args); try reflexivity. discriminate.
Qed.

(** C6. A track without a duration.  The documents that the search returns
    are consulted in order and the first one that yields a duration gives
    the track its duration; the documents after it are not consulted.  When
    none of them yields a duration, [slizzy] logs the error and returns: all
    it has done is to announce the track, search and consult the documents,
    so no variant is invoked and nothing is delivered, and no duration is
    made up.  The batch goes on from there.  When the track is the first of
    the batch, [main] enters its loop over the tracks that follow, in the
    state that [slizzy] has left; when the track is met inside the loop, the
    loop goes on with the tracks that follow.  In both cases the track that
    comes next is started on: its announcement follows that of the track
    without a duration. *)
Theorem unresolved_duration_aborts_track_only (track : Track.t)
    (modules : gset module.t) (download_tracks : bool) (s : state W)
    (pages : list string) (w1 : W) :
  has_duration (Track.duration track) = false ->
  Lib.google L track (Lib.beatport_domain L) (world s) = (Ret pages, w1) ->
  let announced := trace s ++ announce track in
  let searching :=
    mkState w1 (announced ++ [Invoke "google" (Lib.beatport_domain L)]) in
  (forall before page after s1 d w2,
      pages = before ++ page :: after ->
      first_duration L track before searching = (Raise StopIteration, s1) ->
      Lib.beatport_get_metadata L track page (world s1) = (Ret (Some d), w2) ->
      d <> 0 ->
      resolve_duration L track (mkState (world s) announced) =
      (Ret (Some (Track.mk (Track.title track) (Track.query_string track)
                           (Some d))),
       mkState w2 (trace searching ++ map consulted before ++ [consulted page])))
  /\
  (forall s2,
      first_duration L track pages searching = (Raise StopIteration, s2) ->
      let added :=
        announce track ++ Invoke "google" (Lib.beatport_domain L)
        :: map consulted pages ++ [unavailable] in
      let returned := mkState (world s2) (trace s ++ added) in
      slizzy L track modules download_tracks s = (Ret tt, returned)
      /\ List.filter is_adapter_call added = []
      /\ (forall argv args rest,
             is_search (Args.command argv) = true ->
             parse_args L argv s = (Ret args, s) ->
             make_tracks L (Args.tracks args) (Args.duration args) s =
               (Ret (track :: rest), s) ->
             modules = enabled_modules args ->
             download_tracks =
               match Args.command args with dl => true | _ => false end ->
             main L argv s =
               try_except is_ConfigError
                 (remaining_tracks L rest modules download_tracks)
                 config_failed returned
             /\ forall next more,
                  rest = next :: more ->
                  exists done,
                    announcements (trace (snd (main L argv s))) =
                    announcements (trace s)
                    ++ magic track :: magic next :: map magic done)
      /\ (forall s0 rest,
             s = mkState (world s0)
                   (trace s0 ++ [Print (Lib.color_yellow L separator)]) ->
             remaining_tracks L (track :: rest) modules download_tracks s0 =
               remaining_tracks L rest modules download_tracks returned
             /\ forall next more,
                  rest = next :: more ->
                  exists done,
                    announcements
                      (trace (snd (remaining_tracks L (track :: rest) modules
                                     download_tracks s0))) =
                    announcements (trace s0)
                    ++ magic track :: magic next :: map magic done)).
Proof.
  intros Hno Hgoogle announced searching. split.
  - intros before page after s1 d w2 -> Hbefore Hpage Hd.
    rewrite resolve_duration_run by exact Hno. cbn [world trace].
    rewrite Hgoogle. fold searching.
    rewrite (first_duration_first track before page after d w2 Hd
               searching s1 Hbefore Hpage).
    rewrite (first_duration_exhausted _ _ _ _ Hbefore).
    rewrite <- !app_assoc. reflexivity.
  - intros s2 Hnone added returned.
    assert (Hrun : slizzy L track modules download_tracks s = (Ret tt, returned)).
    { rewrite slizzy_run. rewrite resolve_duration_run by exact Hno.
      cbn [world trace]. rewrite Hgoogle. fold announced. fold searching.
      rewrite Hnone. cbn [is_StopIteration].
      rewrite (first_duration_exhausted _ _ _ _ Hnone).
      subst returned added searching announced. cbn [trace].
      rewrite <- !app_assoc. reflexivity. }
    assert (Hleft : announcements (trace returned) =
                    announcements (trace s) ++ [magic track]).
    { pose proof (slizzy_announces track modules download_tracks s) as Hone.
      rewrite Hrun in Hone. exact Hone. }
    split; [exact Hrun|]. split; [|split].
    + clear Hrun Hleft. subst returned added. rewrite List.filter_app. cbn [announce List.filter is_adapter_call].
      cbn [String.eqb Ascii.eqb Bool.eqb orb].
      rewrite List.filter_app. cbn [List.filter is_adapter_call unavailable app].
      rewrite app_nil_r.
      induction pages as [|p ps IH] in |- *; [reflexivity|].
      cbn [map List.filter consulted is_adapter_call].
      cbn [String.eqb Ascii.eqb Bool.eqb orb]. exact IH.
    + intros argv args rest Hcmd Hparse Hmake Hm Hd.
      rewrite Hm, Hd in Hrun. rewrite Hm, Hd.
      destruct (parse_args_returns L _ _ _ _ Hparse) as (_ & Hc & _).
      assert (Hsearch : is_search (Args.command args) = true)
        by (rewrite Hc; exact Hcmd).
      assert (Hmain : main L argv s =
                      try_except is_ConfigError
                        (remaining_tracks L rest (enabled_modules args)
                           match Args.command args with dl => true | _ => false end)
                        config_failed returned).
      { unfold main. rewrite run_bind, Hparse.
        rewrite search_then_nothing by exact Hsearch.
        rewrite Hsearch, run_bind, Hmake.
        unfold try_except at 1. rewrite run_bind, Hrun. reflexivity. }
      split; [exact Hmain|].
      intros next more ->. rewrite Hmain, config_failed_quiet.
      destruct (remaining_tracks_starts next more (enabled_modules args)
                  match Args.command args with dl => true | _ => false end returned)
        as (done & Hdone).
      exists done. rewrite Hdone, Hleft, <- app_assoc. reflexivity.
    + intros s0 rest Hs.
      assert (Hloop : remaining_tracks L (track :: rest) modules download_tracks s0
                      = remaining_tracks L rest modules download_tracks returned).
      { cbn [remaining_tracks]. rewrite run_emit, <- Hs, run_bind, Hrun.
        reflexivity. }
      split; [exact Hloop|].
      intros next more ->. rewrite Hloop.
      destruct (remaining_tracks_starts next more modules download_tracks returned)
        as (done & Hdone).
      exists done. rewrite Hdone, Hleft, Hs. cbn [trace].
      rewrite announcements_app. cbn [announcements List.filter].
      rewrite app_nil_r, <- app_assoc. reflexivity.
Qed.


End Orchestrator.

(** ** The statements at work on the scenario *)

Section Witnesses.

Import Slider Main Scenario.


Lemma slider_absorbs_failures_witness :
  slider env track (start refused_script) =
    (Ret [], failed (HTTPError "http code 503.") (snd after_refusal))
  /\ slider env track (start broken_script) =
       (Ret [], failed (RequestException "connection reset") (snd after_break))
  /\ slider env track (start odd_script) =
       (Ret [], failed TypeError (snd after_oddity))
  /\ slider env track (start script) =
       (Ret (map (fun c => mkDownload (Entry.title c) (Entry.download c))
                 selection),
        closed (snd after_select)).
Proof.
  split; [|split; [|split]].
  - eapply (proj1 (proj2 (slider_absorbs_failures env track
                            (start refused_script)))).
    vm_compute. reflexivity.
  - eapply (proj1 (proj2 (proj2 (slider_absorbs_failures env track
                                   (start broken_script))))).
    + vm_compute. reflexivity.
    + vm_compute. reflexivity.
  - eapply (proj1 (proj2 (proj2 (proj2 (slider_absorbs_failures env track
                                          (start odd_script)))))).
    + vm_compute. reflexivity.
    + vm_compute. reflexivity.
    + vm_compute. reflexivity.
  - eapply (proj2 (proj2 (proj2 (proj2 (slider_absorbs_failures env track
                                          (start script)))))).
    + vm_compute. reflexivity.
    + vm_compute. reflexivity.
    + vm_compute. reflexivity.
Defined.

Lemma select_filters_then_matches_witness :
  (exists selected s',
      select env [c1; c2; c3] track (start []) = (Ret selected, s'))
  /\ [c1] = List.filter (accepted env track) [c1; c2; c3].
Proof.
  split.
  - apply (proj1 (select_filters_then_matches env [c1; c2; c3] track (start []))).
    vm_compute. repeat constructor; eexists; reflexivity.
  - refine (proj1 (proj2 (proj2 (select_filters_then_matches env [c1; c2; c3]
                                   track (start []))) [c1] _ _)).
    vm_compute. reflexivity.
Defined.

Lemma unknown_metadata_rejected_witness :
  ~ In c2 [c1]
  /\ (Entry.size bare = None /\ ~ In bare [c1])
  /\ ~ In c4 [c1].
Proof.
  split; [|split].
  - eapply (proj1 (unknown_metadata_rejected env track)
              [c1; c2; c3] (start []) [c1] _ c2).
    + vm_compute. reflexivity.
    + reflexivity.
  - eapply (proj1 (proj2 (unknown_metadata_rejected env track))
              [r1; r2] (start half_script) halves _ [c1] _ bare).
    + vm_compute. reflexivity.
    + vm_compute. reflexivity.
    + right. left. reflexivity.
    + left. reflexivity.
  - eapply (proj2 (proj2 (unknown_metadata_rejected env track))
              eq_refl eq_refl [c1; c4] (start []) [c1] _ c4).
    + vm_compute. reflexivity.
    + right. reflexivity.
Defined.

Lemma enabled_modules_default_witness :
  enabled_modules (argv dl ["Artist - Title"] NoDuration false false false)
    = all_modules
  /\ forall m,
       m ∈ enabled_modules (argv dl ["Artist - Title"] NoDuration true false true)
       <-> flag (argv dl ["Artist - Title"] NoDuration true false true) m = true.
Proof.
  split.
  - exact (proj1 (proj1 (enabled_modules_default
                           (argv dl ["Artist - Title"] NoDuration false false false))
                        eq_refl eq_refl eq_refl)).
  - exact (proj2 (enabled_modules_default
                    (argv dl ["Artist - Title"] NoDuration true false true))
                 (or_introl eq_refl)).
Defined.


Lemma unparseable_track_ends_invocation_witness :
  main lib (argv lns ["Artist - Title"; "Nobody"; "Artist - Title"] NoDuration
                 false false false) boot =
  (Exit 1, mkState tt ([] ++ [bad_format "Nobody"])).
Proof.
  apply (unparseable_track_ends_invocation lib
           (argv lns ["Artist - Title"; "Nobody"; "Artist - Title"] NoDuration
                 false false false)
           (argv lns ["Artist - Title"; "Nobody"; "Artist - Title"] NoDuration
                 false false false)
           ["Artist - Title"] ["Artist - Title"] "Nobody" boot boot).
  - reflexivity.
  - reflexivity.
  - reflexivity.
  - constructor; [discriminate|constructor].
  - reflexivity.
Defined.

Lemma unresolved_duration_aborts_track_only_witness :
  resolve_duration lib known (mkState tt ([] ++ announce known)) =
    (Ret (Some (Track.mk "Artist - Title" "Artist - Title" (Some 180))),
     mkState tt
       ((([] ++ announce known) ++ [Invoke "google" "beatport.com"])
        ++ map consulted ["first document"] ++ [consulted "second document"]))
  /\ slizzy lib unknown all_modules true boot = (Ret tt, gave_up [])
  /\ (main lib unknown_first boot =
        try_except is_ConfigError
          (remaining_tracks lib [known] (enabled_modules unknown_first) false)
          (config_failed (W := unit)) (gave_up [])
      /\ exists done,
           announcements (trace (snd (main lib unknown_first boot))) =
           announcements [] ++ magic unknown :: magic known :: map magic done)
  /\ (remaining_tracks lib [unknown; known] all_modules true boot =
        remaining_tracks lib [known] all_modules true
          (gave_up ([] ++ [Print separator]))
      /\ exists done,
           announcements
             (trace (snd (remaining_tracks lib [unknown; known] all_modules
                            true boot))) =
           announcements [] ++ magic unknown :: magic known :: map magic done).
Proof.
  split; [|split; [|split]].
  - eapply (proj1 (unresolved_duration_aborts_track_only lib known all_modules
                     true boot
                     ["first document"; "second document"; "third document"] tt
                     eq_refl eq_refl)
              ["first document"] "second document" ["third document"] _ 180 tt).
    + reflexivity.
    + vm_compute. reflexivity.
    + reflexivity.
    + discriminate.
  - refine (proj1 (proj2 (unresolved_duration_aborts_track_only lib unknown
                            all_modules true boot ["blank document"] tt
                            eq_refl eq_refl)
                     (mkState tt
                        (announce unknown
                         ++ [Invoke "google" "beatport.com";
                             consulted "blank document"])) _)).
    vm_compute. reflexivity.
  - assert (Hnone : first_duration lib unknown ["blank document"]
                      (mkState tt
                         ((trace boot ++ announce unknown)
                          ++ [Invoke "google" (Lib.beatport_domain lib)])) =
                    (Raise StopIteration,
                     mkState tt
                       (announce unknown
                        ++ [Invoke "google" "beatport.com";
                            consulted "blank document"])))
      by (vm_compute; reflexivity).
    destruct (proj1 (proj2 (proj2
                (proj2 (unresolved_duration_aborts_track_only lib unknown
                          (enabled_modules unknown_first) false boot
                          ["blank document"] tt eq_refl eq_refl)
                   _ Hnone)))
                unknown_first unknown_first [known]
                eq_refl eq_refl eq_refl eq_refl eq_refl) as [Hmain Hnext].
    split; [exact Hmain|exact (Hnext known [] eq_refl)].
  - assert (Hnone : first_duration lib unknown ["blank document"]
                      (mkState tt
                         ((([] ++ [Print (Lib.color_yellow lib separator)])
                           ++ announce unknown)
                          ++ [Invoke "google" (Lib.beatport_domain lib)])) =
                    (Raise StopIteration,
                     mkState tt
                       ([Print separator] ++ announce unknown
                        ++ [Invoke "google" "beatport.com";
                            consulted "blank document"])))
      by (vm_compute; reflexivity).
    destruct (proj2 (proj2 (proj2
                (proj2 (unresolved_duration_aborts_track_only lib unknown
                          all_modules true
                          (mkState tt
                             ([] ++ [Print (Lib.color_yellow lib separator)]))
                          ["blank document"] tt eq_refl eq_refl)
                   _ Hnone)))
                boot [known] eq_refl) as [Hloop Hnext].
    split; [exact Hloop|exact (Hnext known [] eq_refl)].
Defined.



(** C1 fails as stated: in a batch of two tracks whose first text is
    refused, the invocation ends with status 1 and the second track, whose
    text is fine, is not processed. *)
Lemma unparseable_track_counterexample :
  Lib.new_track lib "Artist - Title" NoDuration <> None
  /\ main lib (argv lns ["Nobody"; "Artist - Title"] NoDuration false false false)
          boot =
     (Exit 1, mkState tt [bad_format "Nobody"])
  /\ announcements
       (trace (snd (main lib (argv lns ["Nobody"; "Artist - Title"] NoDuration
                                   false false false) boot))) = [].
Proof.
  split; [discriminate|]. split; vm_compute; reflexivity.
Qed.



End Witnesses.

(** * Further properties of the adapter *)

(** ** Script and trace discipline *)

Section Discipline.

Import Slider.

Context (E : Env).

Lemma extends_refl s : extends s s.
Proof. split; [exists []|exists []]; [reflexivity|]. rewrite app_nil_r. reflexivity. Qed.

Lemma extends_trans s1 s2 s3 : extends s1 s2 -> extends s2 s3 -> extends s1 s3.
Proof.
  intros [[u1 Hu1] [a1 Ha1]] [[u2 Hu2] [a2 Ha2]]. split.
  - exists (u1 ++ u2). rewrite Hu1, Hu2, app_assoc. reflexivity.
  - exists (a1 ++ a2). rewrite Ha2, Ha1, app_assoc. reflexivity.
Qed.

Lemma orderly_ret {A} (a : A) : orderly (mret a : M World A).
Proof.
  intros s. split; [apply extends_refl|]. split; cbn; discriminate.
Qed.

Lemma orderly_raise {A} (e : exn) : orderly (raise e : M World A).
Proof.
  intros s. split; [apply extends_refl|]. split; cbn; discriminate.
Qed.

Lemma orderly_lift {A} (r : exn + A) : orderly (lift r : M World A).
Proof.
  intros s. unfold orderly_at, lift.
  destruct r; (split; [apply extends_refl|]; split; cbn; discriminate).
Qed.

Lemma orderly_emit ev : orderly (emit ev : M World unit).
Proof.
  intros s. split; [|split; cbn; discriminate].
  split; [exists []|exists [ev]]; reflexivity.
Qed.

Lemma orderly_at_bind {A B} (c : M World A) (k : A -> M World B) s :
  orderly_at c s ->
  (forall a s1, c s = (Ret a, s1) -> orderly_at (k a) s1) ->
  orderly_at (c ≫= k) s.
Proof.
  intros (Hext & Hexit & Hhang) Hk. unfold orderly_at. rewrite run_bind.
  destruct (c s) as [[a|e|n|] s1] eqn:Hc; cbn [fst snd] in *.
  - destruct (Hk a s1 eq_refl) as (Hext' & Hexit' & Hhang').
    split; [eapply extends_trans; eassumption|]. split; assumption.
  - split; [assumption|]. split; intros; discriminate.
  - exfalso. apply (Hexit n). reflexivity.
  - split; [assumption|]. split; [intros; discriminate|].
    intros _. apply Hhang. reflexivity.
Qed.

Lemma orderly_bind {A B} (c : M World A) (k : A -> M World B) :
  orderly c -> (forall a, orderly (k a)) -> orderly (c ≫= k).
Proof.
  intros Hc Hk s. apply orderly_at_bind; [apply Hc|]. intros a s1 _. apply Hk.
Qed.

Lemma orderly_get url params : orderly (requests_get url params).
Proof.
  intros s. unfold orderly_at, requests_get, extends.
  destruct (world s) as [|[c b|e] rest] eqn:Hw; cbn [fst snd world trace];
    rewrite ?Hw.
  - split; [split; [exists []; reflexivity|eexists; reflexivity]|].
    split; [discriminate|reflexivity].
  - split; [split; [exists [Answer c b]; reflexivity|eexists; reflexivity]|].
    split; discriminate.
  - split; [split; [exists [Failure e]; reflexivity|eexists; reflexivity]|].
    split; discriminate.
Qed.

Lemma orderly_try_except {A} cls (c : M World A) h :
  orderly c -> (forall e, orderly (h e)) -> orderly (try_except cls c h).
Proof.
  intros Hc Hh s. destruct (Hc s) as (Hext & Hexit & Hhang).
  unfold orderly_at, try_except in *.
  destruct (c s) as [[a|e|n|] s1] eqn:Hcs; cbn [fst snd] in *;
    try (split; [assumption|]; split; assumption).
  destruct (cls e); [|split; [assumption|]; split; assumption].
  destruct (Hh e s1) as (Hext' & Hexit' & Hhang').
  split; [eapply extends_trans; eassumption|]. split; assumption.
Qed.

Lemma orderly_mapM {A B} (f : A -> M World B) (l : list A) :
  (forall x, orderly (f x)) -> orderly (mapM f l).
Proof.
  intros Hf. induction l as [|x l IH]; cbn [mapM]; [apply orderly_ret|].
  apply orderly_bind; [apply Hf|]. intros y.
  apply orderly_bind; [exact IH|]. intros ys. apply orderly_ret.
Qed.

Lemma orderly_partition {A} (pred : A -> M World bool) (l : list A) :
  (forall x, orderly (pred x)) -> orderly (partition pred l).
Proof.
  intros Hp. induction l as [|x l IH]; cbn [partition]; [apply orderly_ret|].
  apply orderly_bind; [apply Hp|]. intros b.
  apply orderly_bind; [exact IH|]. intros rest. apply orderly_ret.
Qed.

(** Routine steps. *)
Ltac orderly :=
  repeat first
    [ apply orderly_ret | apply orderly_raise | apply orderly_lift
    | apply orderly_emit | apply orderly_get
    | apply orderly_bind; [|intros ?]
    | apply orderly_mapM; intros ?
    | match goal with
      | |- orderly (if ?b then _ else _) => destruct b
      | |- orderly (match ?x with _ => _ end) => destruct x
      end ].

(** The loops never run out of fuel before the script is used up. *)
Lemma fetch_loop_orderly track fuel s :
  (length (world s) < fuel)%nat -> orderly_at (fetch_loop E fuel track) s.
Proof.
  revert s. induction fuel as [|fuel IH]; intros s Hfuel; [lia|].
  cbn [fetch_loop].
  apply orderly_at_bind; [apply orderly_emit|]. intros [] s1 Hs1.
  unfold emit in Hs1. injection Hs1 as <-.
  apply orderly_at_bind; [apply orderly_get|]. intros page s2 Hs2.
  destruct (negb (status_code page =? 200)); [apply orderly_raise|].
  apply orderly_at_bind; [apply orderly_lift|]. intros raw s3 Hs3.
  destruct (isinstance_int raw); [|apply orderly_ret].
  apply IH.
  unfold lift in Hs3. destruct (json_loads E (body page)); [discriminate|].
  injection Hs3 as _ <-.
  unfold requests_get in Hs2. cbn [world trace] in Hs2. unfold World in *.
  destruct (world s) as [|[c b|e] rest]; try discriminate.
  injection Hs2 as _ <-. cbn [world length] in *. lia.
Qed.

Lemma fetch_info_loop_orderly url fuel s :
  (length (world s) < fuel)%nat -> orderly_at (fetch_info_loop E fuel url) s.
Proof.
  revert s. induction fuel as [|fuel IH]; intros s Hfuel; [lia|].
  cbn [fetch_info_loop].
  apply orderly_at_bind; [apply orderly_emit|]. intros [] s1 Hs1.
  unfold emit in Hs1. injection Hs1 as <-.
  apply orderly_at_bind; [apply orderly_get|]. intros page s2 Hs2.
  assert (Hfail : forall msg lvl,
             orderly (emit (ProgressFinish msg lvl) ;;
                      (mret None : M World (option Info.t)))) by (intros; orderly).
  destruct (negb (status_code page =? 200)); [apply Hfail|].
  destruct (parse_info E _) as [e|data]; [apply Hfail|].
  destruct (Info.bitrate data =? 0); [|apply orderly_ret].
  apply IH.
  unfold requests_get in Hs2. cbn [world trace] in Hs2. unfold World in *.
  destruct (world s) as [|[c b|e] rest]; try discriminate.
  injection Hs2 as _ <-. cbn [world length] in *. lia.
Qed.

Lemma retrieve_orderly track : orderly (retrieve E track).
Proof.
  intros s. unfold orderly_at, retrieve.
  apply (fetch_loop_orderly track (S (length (world s))) s). apply Nat.lt_succ_diag_r.
Qed.

Lemma metadata_orderly url : orderly (metadata E url).
Proof.
  intros s. unfold orderly_at, metadata.
  apply (fetch_info_loop_orderly url (S (length (world s))) s). apply Nat.lt_succ_diag_r.
Qed.

Lemma fetch_orderly track : orderly (fetch E track).
Proof.
  unfold fetch. apply orderly_bind; [apply orderly_emit|]. intros _.
  apply orderly_bind; [apply retrieve_orderly|]. intros raw.
  unfold entries_of, raw_group, raw_entry. orderly.
Qed.

Lemma fetch_info_orderly id duration url : orderly (fetch_info E id duration url).
Proof.
  unfold fetch_info. apply orderly_bind; [apply orderly_lift|]. intros head.
  apply orderly_bind; [apply orderly_emit|]. intros _.
  apply orderly_bind; [apply metadata_orderly|]. intros [data|];
    [|apply orderly_ret].
  unfold fetched. orderly.
Qed.

Lemma normalize_orderly raw : orderly (normalize E raw).
Proof.
  unfold normalize. apply orderly_mapM. intros e. unfold norm.
  apply orderly_bind; [apply fetch_info_orderly|]. intros info.
  apply orderly_ret.
Qed.

Lemma select_orderly entries track : orderly (select E entries track).
Proof.
  unfold select.
  apply orderly_bind.
  { apply orderly_partition. intros x. unfold name_matches. orderly. }
  intros parts.
  apply orderly_bind.
  { destruct (snd parts); [apply orderly_ret|].
    apply orderly_bind; [|intros names; apply orderly_emit].
    apply orderly_mapM. intros e. apply orderly_lift. }
  intros _.
  apply orderly_bind.
  { apply orderly_mapM. intros e. unfold entry_block. orderly. }
  intros blocks. orderly.
Qed.

Lemma pipeline_orderly track : orderly (pipeline E track).
Proof.
  unfold pipeline. apply orderly_bind; [apply fetch_orderly|]. intros raw.
  apply orderly_bind; [apply normalize_orderly|]. intros candidates.
  apply select_orderly.
Qed.

(** X1. [slider] comes back with a list unless the upstream stops
    answering: it never raises and never leaves through [sys.exit], and when
    it does not return, the whole script has been used up. *)
Theorem slider_returns_unless_starved (track : Track.t) (s : state World) :
  (exists downloads, fst (slider E track s) = Ret downloads)
  \/ (fst (slider E track s) = Hang /\ world (snd (slider E track s)) = []).
Proof.
  rewrite slider_run.
  destruct (pipeline_orderly track (entered track s)) as (_ & Hexit & Hhang).
  destruct (pipeline E track (entered track s)) as [[sel|e|n|] s1];
    cbn [fst snd] in *.
  - left. eauto.
  - left. eauto.
  - exfalso. apply (Hexit n). reflexivity.
  - right. split; [reflexivity|]. apply Hhang. reflexivity.
Qed.

(** X2. Whenever [slider] returns, it has used up a front part of the
    script, and what it has written starts with the line that announces the
    run and ends with the closing of its logger, after everything that was
    in the trace before. *)
Theorem slider_brackets_its_log (track : Track.t) (s s' : state World)
    (downloads : list Download) :
  slider E track s = (Ret downloads, s') ->
  (exists used, world s = used ++ world s')
  /\ exists between,
       trace s' =
       trace s
       ++ Log "slider"
            ("Running slider for track '" +:+ Track.query_string track +:+ "'.")
            (Some lvl_info)
       :: between ++ [Finish "slider" None].
Proof.
  rewrite slider_run.
  destruct (pipeline_orderly track (entered track s))
    as ([[used Hused] [added Hadded]] & _ & _).
  destruct (pipeline E track (entered track s)) as [[sel|e|n|] s1];
    cbn [fst snd] in *; try discriminate.
  - intros H. injection H as _ <-. cbn [closed world trace]. split.
    + exists used. exact Hused.
    + exists added. rewrite Hadded. cbn [entered trace].
      rewrite <- !app_assoc. reflexivity.
  - intros H. injection H as _ <-. cbn [failed world trace]. split.
    + exists used. exact Hused.
    + exists (added ++ [Log "slider" ("Slider failed: " +:+ exn_str e)
                            (Some lvl_error)]).
      rewrite Hadded. cbn [entered trace]. rewrite <- !app_assoc. reflexivity.
Qed.

End Discipline.

(** ** Shapes of the upstream replies *)

Section Shapes.

Import Slider.

Context (E : Env).

(** X3. Only an integer body is retried by [fetch].  After any number of
    placeholder replies, a reply with status 200 whose body cannot be decoded
    makes [fetch] raise the error of the decoder on that attempt; the replies
    after it are not requested. *)
Theorem fetch_gives_up_on_undecodable (track : Track.t) (pre rest : list reply)
    (b : string) (e : exn) (tr : list event) :
  Forall (fun r => is_placeholder E r = true) pre ->
  json_loads E b = inl e ->
  fetch E track (mkState (pre ++ Answer 200 b :: rest) tr) =
  (Raise e,
   mkState rest
     (tr ++ Progress "slider" "Retrieving slider entries..."
         :: attempts search_url (search_params track) (S (length pre)))).
Proof.
  intros Hpre Hb. unfold fetch. rewrite run_emit, run_bind.
  unfold retrieve. cbn [world trace].
  destruct (fuel_left pre (Answer 200 b) rest) as (k & Hk & Hlt).
  rewrite (fetch_loop_placeholders E track pre Hpre) by assumption.
  rewrite Hk, fetch_loop_answer. cbv zeta. cbn [Z.eqb Pos.eqb negb].
  rewrite Hb, trace_rounds. reflexivity.
Qed.

(** X4. Only a bitrate of 0 is retried by [fetch_info].  After any number
    of replies that read as a bitrate of 0, a reply with status 200 that
    cannot be read makes [fetch_info] report a parse error as a warning and
    return [None] on that attempt; the replies after it are not requested
    and nothing is raised. *)
Theorem fetch_info_gives_up_on_unreadable (id : string) (duration : json)
    (url : string) (pre rest : list reply) (b : string) (e : exn)
    (tr : list event) :
  Forall (fun r => is_pending E r = true) pre ->
  parse_info E (Str.split_br (Str.sub_b_tags b)) = inl e ->
  fetch_info E (JStr id) duration url
    (mkState (pre ++ Answer 200 b :: rest) tr) =
  (Ret None,
   mkState rest
     ((tr ++ Progress "slider" ("Fetching metadata (" +:+ id +:+ ")...")
          :: attempts url [] (S (length pre)))
      ++ [ProgressFinish "Failed to fetch metadata: parse error."
                         (Some lvl_warn)])).
Proof.
  intros Hpre Hb. unfold fetch_info. cbn [str_add].
  rewrite run_lift_ok, run_emit, run_bind. unfold metadata.
  cbn [world trace].
  destruct (fuel_left pre (Answer 200 b) rest) as (k & Hk & Hlt).
  rewrite (fetch_info_loop_pending E url pre Hpre) by assumption.
  rewrite Hk, fetch_info_loop_answer. cbv zeta. cbn [Z.eqb Pos.eqb negb].
  rewrite Hb, trace_rounds. reflexivity.
Qed.

(** X5. A decoded response of the wrong shape makes [fetch] raise before it
    reports any entry: [KeyError] when the object has no ["audios"] key,
    [TypeError] when the response is no object at all, [AttributeError] when
    the value under ["audios"] is no object. *)
Theorem entries_of_wrong_shape (raw : json) (s : state World) :
  (forall d, raw = JDict d -> assoc "audios" d = None ->
             entries_of E raw s = (Raise (KeyError "audios"), s))
  /\ ((forall d, raw <> JDict d) ->
      entries_of E raw s = (Raise TypeError, s))
  /\ (forall d audios,
         raw = JDict d -> assoc "audios" d = Some audios ->
         (forall groups, audios <> JDict groups) ->
         entries_of E raw s = (Raise AttributeError, s)).
Proof.
  split; [|split].
  - intros d -> Hnone. unfold entries_of. cbn [getitem]. rewrite Hnone.
    reflexivity.
  - intros Hraw. unfold entries_of.
    destruct raw; try reflexivity. exfalso. eapply Hraw. reflexivity.
  - intros d audios -> Hsome Haudios. unfold entries_of. cbn [getitem].
    rewrite Hsome, run_lift_ok.
    destruct audios; try reflexivity. exfalso. eapply Haudios. reflexivity.
Qed.

(** X6. On a response of the expected shape, an object whose ["audios"]
    value maps each group key to a list of objects with the four fields,
    [fetch] returns one entry per object, group by group and in the order of
    the response, each with the key of its group, and reports their number. *)
Theorem entries_of_well_formed (d groups : list (string * json))
    (s : state World) :
  assoc "audios" d = Some (JDict groups) ->
  Forall group_ok groups ->
  let entries := concat (map group_entries groups) in
  entries_of E (JDict d) s =
  (Ret entries,
   mkState (world s)
     (trace s ++ [ProgressFinish (retrieved_msg E (length entries)) None]))
  /\ length entries
     = list_sum (map (fun g => length (group_entries g)) groups)
  /\ Forall (fun g => Forall (fun r => Raw.key r = fst g) (group_entries g))
            groups.
Proof.
  intros Haudios Hgroups entries. split; [|split].
  - unfold entries_of. cbn [getitem]. rewrite Haudios, run_lift_ok.
    cbn [items]. rewrite run_lift_ok, run_bind.
    rewrite (raw_groups_run groups s Hgroups). rewrite run_emit. reflexivity.
  - subst entries. clear. induction groups as [|g groups IH]; [reflexivity|].
    cbn [map concat list_sum foldr]. rewrite length_app, IH. reflexivity.
  - clear. apply Forall_forall. intros g _. unfold group_entries.
    destruct (snd g) as [| | | | |l|]; try constructor.
    induction l as [|x l IH]; [constructor|].
    cbn [omap list_omap]. destruct (raw_of (fst g) x) as [r|] eqn:Hr;
      [|exact IH].
    constructor; [|exact IH].
    unfold raw_of in Hr. destruct x as [| | | | | |dd]; try discriminate.
    destruct (assoc "id" dd), (assoc "ext" dd), (assoc "duration" dd),
      (assoc "tit_art" dd); try discriminate.
    injection Hr as <-. reflexivity.
Qed.

(** X7. [fetch_info] asks for nothing when the identifier is not a string:
    it raises [TypeError] while it builds its first message, and the script
    and the trace are as before. *)
Theorem fetch_info_needs_text_id (id duration : json) (url : string)
    (s : state World) :
  (forall text, id <> JStr text) ->
  fetch_info E id duration url s = (Raise TypeError, s).
Proof.
  intros Hid. unfold fetch_info.
  destruct id; try reflexivity. exfalso. eapply Hid. reflexivity.
Qed.

End Shapes.

(** ** Candidates and selection *)

Section Candidates.

Import Slider.

Context (E : Env).

Lemma norm_candidate e s c s' :
  norm E e s = (Ret c, s') ->
  exists info,
    c = candidate E e info
    /\ forall data, info = Some data -> Info.bitrate data <> 0.
Proof.
  unfold norm. rewrite run_bind.
  match goal with
  | |- context [fetch_info E ?i ?d ?u s] =>
      destruct (fetch_info E i d u s) as [[info|x|n|] s1] eqn:Hinfo
  end; try discriminate.
  rewrite run_ret. intros H. injection H as <- _.
  exists info. split; [reflexivity|].
  intros data ->. eapply fetch_info_some. exact Hinfo.
Qed.

Lemma mapM_Forall2 {A B} (f : A -> M World B) (R : A -> B -> Prop) :
  (forall x s y s', f x s = (Ret y, s') -> R x y) ->
  forall l s ys s', mapM f l s = (Ret ys, s') -> Forall2 R l ys.
Proof.
  intros Hf. induction l as [|x l IH]; intros s ys s' H.
  - cbn in H. injection H as <- _. constructor.
  - cbn [mapM] in H. rewrite run_bind in H.
    destruct (f x s) as [[y|e|n|] s1] eqn:Hx; try discriminate.
    rewrite run_bind in H.
    destruct (mapM f l s1) as [[zs|e|n|] s2] eqn:Hl; try discriminate.
    rewrite run_ret in H. injection H as <- _.
    constructor; [eapply Hf; exact Hx|eapply IH; exact Hl].
Qed.

(** X8. [normalize] drops nothing.  When it returns, there is one candidate
    per raw entry, in the same order, with the identifier, title and duration
    of the entry and the download address built from its key, identifier and
    extension; the bitrate and the size are those of the metadata that was
    found, with a bitrate other than 0, or both absent.  In particular an
    entry whose metadata request is answered with a status other than 200
    still becomes a candidate, without bitrate and size. *)
Theorem normalize_keeps_entries :
  (forall raw s candidates s',
      normalize E raw s = (Ret candidates, s') ->
      Forall2 (fun e c =>
                 exists info,
                   c = candidate E e info
                   /\ forall data, info = Some data -> Info.bitrate data <> 0)
              raw candidates
      /\ length candidates = length raw)
  /\ (forall e id status b rest tr,
         Raw.id e = JStr id -> status <> 200 ->
         exists tr',
           normalize E [e] (mkState (Answer status b :: rest) tr) =
           (Ret [candidate E e None], mkState rest tr')).
Proof.
  split.
  - intros raw s candidates s' H.
    assert (H2 := mapM_Forall2 (norm E) _ (norm_candidate) raw s candidates s' H).
    split; [exact H2|]. symmetry. eapply Forall2_length. exact H2.
  - intros e id status b rest tr Hid Hstatus.
    unfold normalize. cbn [mapM]. rewrite run_bind. unfold norm at 1.
    rewrite run_bind. unfold fetch_info. rewrite Hid. cbn [str_add].
    rewrite run_lift_ok, run_emit, run_bind. unfold metadata.
    cbn [world trace length]. rewrite fetch_info_loop_answer. cbv zeta.
    apply Z.eqb_neq in Hstatus. rewrite Hstatus. cbn [negb].
    eexists. unfold candidate. rewrite Hid. reflexivity.
Qed.

(** X9. When no entry is within the duration and bitrate tolerance,
    [select] makes no fuzzy comparison at all: it returns the empty list and
    the only thing it writes is the line that reports an empty selection. *)
Theorem select_nothing_within_tolerance (entries : list Entry.t)
    (track : Track.t) (s : state World) :
  Forall (fun e => within_tolerance E track e = false) entries ->
  select E entries track s =
  (Ret [],
   mkState (world s) (trace s ++ [Log "slider" (selected_msg E [] []) None])).
Proof.
  intros Hnone.
  assert (Hfilter : List.filter (within_tolerance E track) entries = []).
  { induction Hnone as [|e l He _ IH]; [reflexivity|].
    cbn [List.filter]. rewrite He. exact IH. }
  rewrite select_run. cbv zeta. rewrite Hfilter.
  cbn [List.filter map rejection_report collect]. rewrite !app_nil_r.
  reflexivity.
Qed.

End Candidates.

(** ** Lines of a metadata page *)

Section Lines.

Import Slider.

Context (E : Env).

Lemma append_empty (s : string) : s +:+ "" = s.
Proof.
  induction s as [|c s IH]; [reflexivity|].
  change (String c (s +:+ "") = String c s). rewrite IH. reflexivity.
Qed.

Lemma append_snoc (cur : string) (c : ascii) (r : string) :
  (cur +:+ String c "") +:+ r = cur +:+ String c r.
Proof.
  induction cur as [|d cur IH]; [reflexivity|].
  change (String d ((cur +:+ String c "") +:+ r) = String d (cur +:+ String c r)).
  rewrite IH. reflexivity.
Qed.

Lemma split_br_from_nonempty cur s : Str.split_br_from cur s <> [].
Proof.
  revert cur.
  induction s as [s IH] using (well_founded_induction
                                 (Wf_nat.well_founded_ltof _ String.length)).
  intros cur. destruct s as [|c r]; [discriminate|].
  assert (Hdefault : Str.split_br_from (cur +:+ String c "") r <> [])
    by (apply IH; unfold Wf_nat.ltof; cbn; lia).
  destruct c as [[] [] [] [] [] [] [] []]; try exact Hdefault.
  destruct r as [|c2 r2]; [discriminate|].
  destruct c2 as [[] [] [] [] [] [] [] []]; try exact Hdefault.
  destruct r2 as [|c3 r3]; [discriminate|].
  destruct c3 as [[] [] [] [] [] [] [] []]; try exact Hdefault.
  destruct r3 as [|c4 r4]; [discriminate|].
  destruct c4 as [[] [] [] [] [] [] [] []]; try exact Hdefault.
  discriminate.
Qed.

Lemma join_cons sep x l :
  l <> [] -> Str.join sep (x :: l) = x +:+ sep +:+ Str.join sep l.
Proof. destruct l; [contradiction|reflexivity]. Qed.

Lemma join_split_br_from s :
  forall cur, Str.join "<br>" (Str.split_br_from cur s) = cur +:+ s.
Proof.
  induction s as [s IH] using (well_founded_induction
                                 (Wf_nat.well_founded_ltof _ String.length)).
  intros cur. destruct s as [|c r]; [cbn; rewrite append_empty; reflexivity|].
  assert (Hdefault :
            Str.join "<br>" (Str.split_br_from (cur +:+ String c "") r)
            = cur +:+ String c r)
    by (rewrite IH by (unfold Wf_nat.ltof; cbn; lia); apply append_snoc).
  destruct c as [[] [] [] [] [] [] [] []]; try exact Hdefault.
  destruct r as [|c2 r2]; [exact Hdefault|].
  destruct c2 as [[] [] [] [] [] [] [] []]; try exact Hdefault.
  destruct r2 as [|c3 r3]; [exact Hdefault|].
  destruct c3 as [[] [] [] [] [] [] [] []]; try exact Hdefault.
  destruct r3 as [|c4 r4]; [exact Hdefault|].
  destruct c4 as [[] [] [] [] [] [] [] []]; try exact Hdefault.
  clear Hdefault. cbn [Str.split_br_from].
  rewrite join_cons by apply split_br_from_nonempty.
  rewrite IH by (unfold Wf_nat.ltof; cbn; lia). reflexivity.
Qed.

(** X10. The split of a page into lines loses nothing and never gives an
    empty list: joining the lines with the separator gives back the text
    that was split, so the first line that [fetch_info] reads always
    exists. *)
Theorem split_br_round_trip (s : string) :
  Str.join "<br>" (Str.split_br s) = s
  /\ exists first others, Str.split_br s = first :: others.
Proof.
  split.
  - unfold Str.split_br. apply join_split_br_from.
  - unfold Str.split_br.
    destruct (Str.split_br_from "" s) as [|first others] eqn:H;
      [exfalso; eapply split_br_from_nonempty; exact H|eauto].
Qed.

Lemma tag_free_cons c r :
  tag_free (String c r) = true -> c <> "<"%char /\ tag_free r = true.
Proof.
  unfold tag_free. cbn [list_ascii_of_string forallb].
  intros H. apply andb_true_iff in H as [Hc Hr]. split; [|exact Hr].
  intros ->. discriminate.
Qed.

Lemma plain_lines b :
  tag_free b = true ->
  forall cur, Str.split_br_from cur (Str.sub_b_tags b) = [cur +:+ b].
Proof.
  induction b as [|c r IH]; intros H cur.
  - cbn. rewrite append_empty. reflexivity.
  - apply tag_free_cons in H as [Hc Hr].
    assert (Hstep : Str.split_br_from (cur +:+ String c "") (Str.sub_b_tags r)
                    = [cur +:+ String c r])
      by (rewrite (IH Hr); rewrite append_snoc; reflexivity).
    destruct c as [[] [] [] [] [] [] [] []]; try exact Hstep.
    contradiction.
Qed.

(** X11. A metadata page without any tag has a single line, so its second
    line is missing: whatever the helpers read in the first line, a reply
    with status 200 and such a body makes [fetch_info] report a parse error
    and return [None], after one request. *)
Theorem fetch_info_plain_page (id : string) (duration : json) (url : string)
    (b : string) (rest : list reply) (tr : list event) :
  tag_free b = true ->
  Str.split_br (Str.sub_b_tags b) = [b]
  /\ fetch_info E (JStr id) duration url (mkState (Answer 200 b :: rest) tr) =
     (Ret None,
      mkState rest
        ((tr ++ Progress "slider" ("Fetching metadata (" +:+ id +:+ ")...")
             :: attempts url [] 1)
         ++ [ProgressFinish "Failed to fetch metadata: parse error."
                            (Some lvl_warn)])).
Proof.
  intros Hfree.
  assert (Hlines : Str.split_br (Str.sub_b_tags b) = [b]).
  { unfold Str.split_br. rewrite (plain_lines b Hfree ""). reflexivity. }
  split; [exact Hlines|].
  assert (Hparse : exists e, parse_info E (Str.split_br (Str.sub_b_tags b)) = inl e).
  { rewrite Hlines. unfold parse_info. cbn [nth_item nth_error].
    destruct (read_int E b) as [e|z]; eauto. }
  destruct Hparse as [e He].
  apply (unreadable_not_retried E id duration url b e rest tr He).
Qed.

End Lines.

(** * Further properties of the orchestrator *)

Section Arguments.

Import Main.

Context {W : Type} (L : Lib.t W).

(** X12. A duration on the command line of a search command with a single
    track is read before anything else is done.  When the helper refuses the
    text, [main] prints its message and ends with status 1 without building
    a track; when it accepts it, [parse_args] puts the time in the place of
    the text, prints nothing and leaves every other argument as it was. *)
Theorem duration_text_is_validated (argv : Args.t) (text : string)
    (s : state W) :
  is_search (Args.command argv) = true ->
  Args.duration argv = RawDuration text ->
  text <> "" ->
  (length (Args.tracks argv) <= 1)%nat ->
  (forall e,
      Lib.time_from_str L text = inl e ->
      main L argv s = (Exit 1, mkState (world s) (trace s ++ [bad_duration e])))
  /\ (forall seconds,
         Lib.time_from_str L text = inr seconds ->
         parse_args L argv s = (Ret (with_duration argv (Seconds seconds)), s)).
Proof.
  intros Hcmd Hd Htext Hlen.
  apply String.eqb_neq in Htext.
  assert (Hone : (1 <? length (Args.tracks argv))%nat = false)
    by (apply Nat.ltb_ge; exact Hlen).
  split.
  - intros e He. unfold main. rewrite run_bind. unfold parse_args.
    rewrite Hcmd, Hd, Htext. cbn [negb]. rewrite Hone, run_bind, run_ret, He.
    rewrite run_emit. reflexivity.
  - intros seconds Hs. unfold parse_args.
    rewrite Hcmd, Hd, Htext. cbn [negb]. rewrite Hone, run_bind, run_ret, Hs.
    reflexivity.
Qed.

(** X13. When every text is accepted by [Track], the loop that builds the
    tracks prints nothing, changes nothing, and yields the tracks in the
    order of the texts, each built with the duration of the command line. *)
Theorem make_tracks_all_accepted (texts : list string) (d : duration_arg)
    (tracks : list Track.t) (s : state W) :
  Forall2 (fun text track => Lib.new_track L text d = Some track) texts tracks ->
  make_tracks L texts d s = (Ret tracks, s).
Proof.
  induction 1 as [|text track texts tracks Hnew _ IH]; [reflexivity|].
  cbn [make_tracks]. rewrite Hnew, run_bind, IH. reflexivity.
Qed.

(** X14. The set of enabled variants is never empty and never holds
    anything but the three variants, whatever the flags. *)
Theorem enabled_modules_nonempty (args : Args.t) :
  enabled_modules args <> ∅ /\ enabled_modules args ⊆ all_modules.
Proof.
  unfold enabled_modules, all_modules.
  split.
  - destruct (Args.slider args), (Args.mp3co args), (Args.zippy args);
      cbn [List.filter map fst snd list_to_set];
      case_decide as Hempty; try exact Hempty;
      intros Hall; apply (not_elem_of_empty (C := gset module.t) module.slider);
      rewrite <- Hall; set_solver.
  - destruct (Args.slider args), (Args.mp3co args), (Args.zippy args);
      cbn [List.filter map fst snd list_to_set];
      case_decide as Hempty; intros m Hm; destruct m; set_solver.
Qed.

End Arguments.

Section Batch.

Import Main.

Context {W : Type} (L : Lib.t W).




End Batch.

Section Sources.

Import Main.

Context {W : Type} (L : Lib.t W).

(** X17. The zippy variant asks for a download on every page of the
    search, in order, also after it has found one; it returns at most one
    download per page. *)
Theorem zippy_pages_asks_every_page (track : Track.t) (pages : list string)
    (s s' : state W) (downloads : list Download) :
  zippy_pages L track pages s = (Ret downloads, s') ->
  trace s' = trace s ++ map asked pages
  /\ (length downloads <= length pages)%nat.
Proof.
  revert s downloads. induction pages as [|page rest IH]; intros s downloads H.
  - cbn in H. injection H as <- <-. rewrite app_nil_r. split; [reflexivity|].
    cbn. lia.
  - cbn [zippy_pages] in H. rewrite run_emit, run_bind in H.
    unfold call in H. cbn [world trace] in H.
    destruct (Lib.zippy_get_download L track page (world s)) as [[found|e|n|] w];
      cbn [fst snd] in H; try discriminate.
    rewrite run_bind in H.
    destruct (zippy_pages L track rest _) as [[others|e|n|] s1] eqn:Hrest;
      try discriminate.
    rewrite run_ret in H. injection H as <- <-.
    destruct (IH _ _ Hrest) as [Htrace Hlen]. cbn [trace] in Htrace.
    split.
    + rewrite Htrace, <- app_assoc. reflexivity.
    + destruct found; cbn [length map] in *; lia.
Qed.

(** X18. The orchestrator does not catch what a variant raises.  When the
    slider variant is enabled and raises for a track that has a duration,
    [slizzy] ends with the same exception right there: the other variants
    are not invoked and no count is reported. *)
Theorem adapter_error_reaches_caller (track : Track.t)
    (modules : gset module.t) (download_tracks : bool) (s : state W)
    (e : exn) (w : W) :
  has_duration (Track.duration track) = true ->
  module.slider ∈ modules ->
  Lib.slider L track (world s) = (Raise e, w) ->
  slizzy L track modules download_tracks s =
  (Raise e,
   mkState w (trace s ++ announce track
              ++ [Invoke "slider" (Track.query_string track)])).
Proof.
  intros Hd Hin Hraise. rewrite slizzy_run. unfold resolve_duration.
  rewrite Hd, run_ret. unfold from_slider.
  destruct (decide (module.slider ∈ modules)) as [_|Hout]; [|contradiction].
  rewrite run_emit. unfold call. cbn [world trace]. rewrite Hraise.
  cbn [fst snd]. rewrite <- app_assoc. reflexivity.
Qed.

End Sources.

Section Results.

Import Slider.

Context (E : Env).

Lemma collect_inr {A B} (f : A -> exn + B) (l : list A) ys :
  collect f l = inr ys -> Forall (fun x => exists y, f x = inr y) l.
Proof.
  revert ys. induction l as [|x l IH]; intros ys H; [constructor|].
  cbn [collect] in H. destruct (f x) as [e|y] eqn:Hx; [discriminate|].
  destruct (collect f l) as [e|zs] eqn:Hl; [discriminate|].
  constructor; [eauto|eapply IH; reflexivity].
Qed.

Lemma selected_titles entries track s selected s' :
  select E entries track s = (Ret selected, s') ->
  Forall (fun e => exists t, Entry.title e = JStr t) selected.
Proof.
  intros H. rewrite select_run in H. cbv zeta in H.
  destruct (rejection_report _) as [e|report]; [discriminate|].
  destruct (collect (block_text E) _) as [e|blocks] eqn:Hb; [discriminate|].
  injection H as <- _.
  eapply Forall_impl; [eapply collect_inr; exact Hb|].
  cbn beta. intros e [text Htext]. unfold block_text in Htext.
  destruct (Entry.title e); cbn [str_add] in Htext; try discriminate. eauto.
Qed.

(** X19. What [slider] hands on is well formed: the name of every download
    is a string, and its link is an address under the download path of the
    site. *)
Theorem slider_downloads_well_formed (track : Track.t) (s s' : state World)
    (downloads : list Download) :
  slider E track s = (Ret downloads, s') ->
  Forall (fun d =>
            (exists text, name d = JStr text)
            /\ exists tail, link d = "http://slider.kz/download/" +:+ tail)
         downloads.
Proof.
  rewrite slider_run, pipeline_run.
  destruct (fetch E track (entered track s)) as [[raw|e|n|] s1];
    try discriminate; try (intros H; injection H as <- _; constructor).
  destruct (normalize E raw s1) as [[candidates|e|n|] s2] eqn:Hnorm;
    try discriminate; try (intros H; injection H as <- _; constructor).
  destruct (select E candidates track s2) as [[selected|e|n|] s3] eqn:Hsel;
    try discriminate; try (intros H; injection H as <- _; constructor).
  intros H. injection H as <- _.
  pose proof (selected_titles _ _ _ _ _ Hsel) as Htitles.
  destruct (select_returns_accepted E _ _ _ _ _ Hsel) as [Hfilter _].
  assert (Hlinks : Forall (fun c => exists tail,
                             Entry.download c
                             = "http://slider.kz/download/" +:+ tail)
                          candidates).
  { clear - Hnorm. unfold normalize in Hnorm.
    eapply (mapM_Forall (norm E)); [|exact Hnorm].
    intros e s y s' Hy. destruct (norm_candidate E _ _ _ _ Hy) as (info & -> & _).
    eexists. reflexivity. }
  rewrite Forall_forall in Htitles, Hlinks. apply Forall_forall.
  intros d Hd. apply list_elem_of_In, in_map_iff in Hd as (c & <- & Hc).
  split.
  - apply Htitles. apply list_elem_of_In. exact Hc.
  - apply Hlinks. apply list_elem_of_In.
    rewrite Hfilter in Hc. apply filter_In in Hc as [Hc _]. exact Hc.
Qed.

End Results.

(** ** The order of the batch *)

Section Order.

Import Main.

Context {W : Type} (L : Lib.t W).


End Order.

(** ** The further statements at work on the scenario *)

Section FurtherWitnesses.

Import Slider Main Scenario.

Lemma slider_brackets_its_log_witness :
  (exists used, world (start script) = used ++ world (closed (snd after_select)))
  /\ exists between,
       trace (closed (snd after_select)) =
       trace (start script)
       ++ Log "slider" "Running slider for track 'artist title'." (Some lvl_info)
       :: between ++ [Finish "slider" None].
Proof.
  apply (slider_brackets_its_log env track (start script)
           (closed (snd after_select)) (map project selection)).
  vm_compute. reflexivity.
Defined.

Lemma fetch_gives_up_on_undecodable_witness :
  fetch env track (mkState (busy ++ Answer 200 "<html>" :: info_replies) []) =
  (Raise (JSONDecodeError "Expecting value"),
   mkState info_replies
     ([] ++ Progress "slider" "Retrieving slider entries..."
         :: attempts search_url (search_params track) 4)).
Proof.
  apply (fetch_gives_up_on_undecodable env track busy info_replies "<html>"
           (JSONDecodeError "Expecting value") []).
  - repeat constructor.
  - reflexivity.
Defined.

Lemma fetch_info_gives_up_on_unreadable_witness :
  fetch_info env (JStr "17_43") (JInt 180) "http://slider.kz/info"
    (mkState ([Answer 200 "0<br>0 MB"] ++ Answer 200 "oops" :: info_replies) []) =
  (Ret None,
   mkState info_replies
     (([] ++ Progress "slider" "Fetching metadata (17_43)..."
          :: attempts "http://slider.kz/info" [] 2)
      ++ [ProgressFinish "Failed to fetch metadata: parse error."
                         (Some lvl_warn)])).
Proof.
  apply (fetch_info_gives_up_on_unreadable env "17_43" (JInt 180)
           "http://slider.kz/info" [Answer 200 "0<br>0 MB"] info_replies
           "oops" (OtherError "no number") []).
  - repeat constructor.
  - reflexivity.
Defined.

Lemma entries_of_wrong_shape_witness :
  entries_of env (JDict [("songs", JList [])]) (start [])
    = (Raise (KeyError "audios"), start [])
  /\ entries_of env (JList []) (start []) = (Raise TypeError, start [])
  /\ entries_of env (JDict [("audios", JNull)]) (start [])
     = (Raise AttributeError, start []).
Proof.
  split; [|split].
  - apply (proj1 (entries_of_wrong_shape env (JDict [("songs", JList [])])
                    (start [])) [("songs", JList [])]); reflexivity.
  - apply (proj1 (proj2 (entries_of_wrong_shape env (JList []) (start [])))).
    discriminate.
  - apply (proj2 (proj2 (entries_of_wrong_shape env (JDict [("audios", JNull)])
                           (start [])))
             [("audios", JNull)] JNull); [reflexivity|reflexivity|discriminate].
Defined.

Lemma entries_of_well_formed_witness :
  entries_of env good_json (start []) =
  (Ret [rs1; rs2],
   mkState [] ([] ++ [ProgressFinish (retrieved_msg env 2) None])).
Proof.
  refine (proj1 (entries_of_well_formed env
                   [("audios", JDict [("", JList [song; other_song])])]
                   [("", JList [song; other_song])] (start []) eq_refl _)).
  constructor; [|constructor].
  exists [song; other_song]. split; [reflexivity|].
  repeat constructor; discriminate.
Defined.

Lemma fetch_info_needs_text_id_witness :
  fetch_info env (JInt 17) (JInt 180) "http://slider.kz/info" (start script)
  = (Raise TypeError, start script).
Proof.
  apply (fetch_info_needs_text_id env (JInt 17) (JInt 180)
           "http://slider.kz/info" (start script)).
  discriminate.
Defined.

Lemma normalize_keeps_entries_witness :
  length halves = length [r1; r2]
  /\ exists tr',
       normalize env [r2] (mkState (Answer 404 "" :: info_replies) []) =
       (Ret [candidate env r2 None], mkState info_replies tr').
Proof.
  split.
  - refine (proj2 (proj1 (normalize_keeps_entries env) [r1; r2]
                     (start half_script) halves (snd after_half) _)).
    vm_compute. reflexivity.
  - refine (proj2 (normalize_keeps_entries env) r2 "17_43" 404 ""
              info_replies [] eq_refl _).
    discriminate.
Defined.

Lemma select_nothing_within_tolerance_witness :
  select env [c2] track (start []) =
  (Ret [], mkState [] ([] ++ [Log "slider" (selected_msg env [] []) None])).
Proof.
  apply (select_nothing_within_tolerance env [c2] track (start [])).
  constructor; [reflexivity|constructor].
Defined.

Lemma fetch_info_plain_page_witness :
  Str.split_br (Str.sub_b_tags "320 kbps") = ["320 kbps"]
  /\ fetch_info env (JStr "17_43") (JInt 180) "http://slider.kz/info"
       (mkState (Answer 200 "320 kbps" :: info_replies) []) =
     (Ret None,
      mkState info_replies
        (([] ++ Progress "slider" "Fetching metadata (17_43)..."
             :: attempts "http://slider.kz/info" [] 1)
         ++ [ProgressFinish "Failed to fetch metadata: parse error."
                            (Some lvl_warn)])).
Proof.
  apply (fetch_info_plain_page env "17_43" (JInt 180) "http://slider.kz/info"
           "320 kbps" info_replies []).
  reflexivity.
Defined.

Lemma duration_text_is_validated_witness :
  main lib (argv dl ["Artist - Title"] (RawDuration "soon") false false false)
       boot =
    (Exit 1,
     mkState tt ([] ++ [bad_duration (OtherError "invalid time format")]))
  /\ parse_args lib
       (argv dl ["Artist - Title"] (RawDuration "180") false false false) boot =
     (Ret (argv dl ["Artist - Title"] (Seconds 180) false false false), boot).
Proof.
  split.
  - refine (proj1 (duration_text_is_validated lib
                     (argv dl ["Artist - Title"] (RawDuration "soon")
                           false false false)
                     "soon" boot eq_refl eq_refl _ _)
              (OtherError "invalid time format") eq_refl).
    + discriminate.
    + cbn. lia.
  - refine (proj2 (duration_text_is_validated lib
                     (argv dl ["Artist - Title"] (RawDuration "180")
                           false false false)
                     "180" boot eq_refl eq_refl _ _)
              180 eq_refl).
    + discriminate.
    + cbn. lia.
Defined.

Lemma make_tracks_all_accepted_witness :
  make_tracks lib ["Artist - Title"; "Nobody - Nothing"] NoDuration boot
  = (Ret [known; unknown], boot).
Proof.
  apply (make_tracks_all_accepted lib ["Artist - Title"; "Nobody - Nothing"]
           NoDuration [known; unknown] boot).
  repeat constructor.
Defined.



Lemma zippy_pages_asks_every_page_witness :
  trace (snd (zippy_pages lib track ["file page"; "next page"] boot))
    = [] ++ map asked ["file page"; "next page"]
  /\ (length [d4; d4] <= length ["file page"; "next page"])%nat.
Proof.
  apply (zippy_pages_asks_every_page lib track ["file page"; "next page"] boot
           (snd (zippy_pages lib track ["file page"; "next page"] boot))
           [d4; d4]).
  vm_compute. reflexivity.
Defined.

Lemma adapter_error_reaches_caller_witness :
  slizzy unconfigured track all_modules true boot =
  (Raise (ConfigError "slider is not set up"),
   mkState tt ([] ++ announce track ++ [Invoke "slider" "artist title"])).
Proof.
  apply (adapter_error_reaches_caller unconfigured track all_modules true boot
           (ConfigError "slider is not set up") tt).
  - reflexivity.
  - unfold all_modules. set_solver.
  - reflexivity.
Defined.

Lemma slider_downloads_well_formed_witness :
  Forall (fun d =>
            (exists text, name d = JStr text)
            /\ exists tail, link d = "http://slider.kz/download/" +:+ tail)
         (map project selection).
Proof.
  apply (slider_downloads_well_formed env track (start script)
           (closed (snd after_select)) (map project selection)).
  vm_compute. reflexivity.
Defined.


End FurtherWitnesses.
